(** * Grid-world observation descriptions: [babyai_env_description.py]

    A shallow embedding of the description pipeline (view partition, cell,
    region and frame descriptions, prompt builder) together with the
    properties of its specification.

    Python values are modelled as follows: [int] as [Z], [str] as [string],
    lists as [list], tuples as products, a [dict] or [Counter] as an
    association list in insertion order, and a raised exception as the
    [Raise] branch of [Py.result]. *)

From Stdlib Require Import String Ascii List ZArith Lia Bool DecimalString Permutation.
From Stdlib Require OrderedTypeEx Sorted.
Import ListNotations.

Open Scope string_scope.
Open Scope list_scope.
Open Scope Z_scope.

(** ** The fragment of Python the program relies on *)

Module Py.

Inductive exn : Type :=
| TypeError | AttributeError | IndexError | KeyError | AssertionError.

Inductive result (A : Type) : Type :=
| Ok (a : A)
| Raise (e : exn).
Arguments Ok {A} a.
Arguments Raise {A} e.

Definition bind {A B} (m : result A) (k : A -> result B) : result B :=
  match m with
  | Ok a => k a
  | Raise e => Raise e
  end.

Definition len {A} (l : list A) : Z := Z.of_nat (List.length l).

(** [l[i]]: negative indices count from the end. *)
Definition index {A} (l : list A) (i : Z) : result A :=
  let j := if i <? 0 then i + len l else i in
  if (j <? 0) || (len l <=? j) then Raise IndexError
  else match nth_error l (Z.to_nat j) with
       | Some a => Ok a
       | None => Raise IndexError
       end.

(** [s[i]] on a string: the one-character string at position [i]. *)
Definition str_index (s : string) (i : Z) : result string :=
  let n := Z.of_nat (String.length s) in
  let j := if i <? 0 then i + n else i in
  if (j <? 0) || (n <=? j) then Raise IndexError
  else match String.get (Z.to_nat j) s with
       | Some c => Ok (String c EmptyString)
       | None => Raise IndexError
       end.

(** [range(n)] *)
Definition range (n : Z) : list Z := map Z.of_nat (seq 0 (Z.to_nat n)).

(** [sep.join(l)] *)
Definition join (sep : string) (l : list string) : string := String.concat sep l.

(** [sub in s] on strings: substring test. *)
Fixpoint contains (sub s : string) : bool :=
  prefix sub s ||
  match s with
  | EmptyString => false
  | String _ s' => contains sub s'
  end.

(** [x in l] on a list of strings. *)
Definition mem (x : string) (l : list string) : bool :=
  existsb (String.eqb x) l.

(** [str(n)] / [f'{n}'] for an [int]. *)
Definition str_of_int (n : Z) : string := NilZero.string_of_int (Z.to_int n).

(** [l[:-1]] *)
Definition all_but_last {A} (l : list A) : list A := removelast l.

(** [sorted(l)]: a stable sort.  Python compares with [<] only; an element
    is placed before the first element that is not smaller than it. *)
Fixpoint insert_sorted {A} (lt : A -> A -> bool) (x : A) (l : list A) : list A :=
  match l with
  | [] => [x]
  | y :: l' => if lt y x then y :: insert_sorted lt x l' else x :: y :: l'
  end.

Fixpoint sorted {A} (lt : A -> A -> bool) (l : list A) : list A :=
  match l with
  | [] => []
  | x :: l' => insert_sorted lt x (sorted lt l')
  end.

(** [sorted(l, key=key)] with integer keys. *)
Definition sorted_by {A} (key : A -> Z) (l : list A) : list A :=
  sorted (fun x y => key x <? key y) l.

(** [<] on tuples of two strings: lexicographic. *)
Definition tuple_ltb (x y : string * string) : bool :=
  match String.compare (fst x) (fst y) with
  | Lt => true
  | Eq => String.ltb (snd x) (snd y)
  | Gt => false
  end.

(** [d[k]] on a [dict] with string keys. *)
Fixpoint dict_get {V} (d : list (string * V)) (k : string) : result V :=
  match d with
  | [] => Raise KeyError
  | (k', v) :: rest => if String.eqb k' k then Ok v else dict_get rest k
  end.

Definition newline : ascii := ascii_of_nat 10.
Definition tab : ascii := ascii_of_nat 9.

(** Whitespace as [str.lstrip()] understands it, on ASCII. *)
Definition isspace (c : ascii) : bool :=
  let n := nat_of_ascii c in
  (Nat.eqb n 32 || (Nat.leb 9 n && Nat.leb n 13) ||
   (Nat.leb 28 n && Nat.leb n 31))%bool.

Fixpoint lstrip (s : string) : string :=
  match s with
  | EmptyString => EmptyString
  | String c s' => if isspace c then lstrip s' else s
  end.

(** [s.split('\n')] *)
Fixpoint split_lines (s : string) : list string :=
  match s with
  | EmptyString => [EmptyString]
  | String c s' =>
      match split_lines s' with
      | [] => [EmptyString]
      | l :: ls =>
          if Ascii.eqb c newline then EmptyString :: l :: ls
          else String c l :: ls
      end
  end.

(** [s.expandtabs()] with the default tab size 8. *)
Fixpoint expandtabs_from (col : nat) (s : string) : string :=
  match s with
  | EmptyString => EmptyString
  | String c s' =>
      if Ascii.eqb c tab then
        let k := (8 - Nat.modulo col 8)%nat in
        (string_of_list_ascii (repeat " "%char k) ++ expandtabs_from 0 s')%string
      else if Ascii.eqb c newline || Ascii.eqb c (ascii_of_nat 13) then
        String c (expandtabs_from 0 s')
      else String c (expandtabs_from (S col) s')
  end.

(** [s[k:]] on a string. *)
Fixpoint str_drop (k : nat) (s : string) : string :=
  match k, s with
  | O, _ => s
  | S k', String _ s' => str_drop k' s'
  | S _, EmptyString => EmptyString
  end.

Fixpoint drop_leading_blank (lines : list string) : list string :=
  match lines with
  | EmptyString :: rest => drop_leading_blank rest
  | _ => lines
  end.

(** [inspect.cleandoc(doc)] *)
Definition cleandoc (doc : string) : string :=
  let lines := split_lines (expandtabs_from 0 doc) in
  let indents :=
    flat_map (fun line =>
                let content := String.length (lstrip line) in
                if Nat.eqb content 0 then []
                else [(String.length line - content)%nat])
             (List.tl lines) in
  let lines :=
    match lines with
    | [] => []
    | first :: rest =>
        lstrip first ::
        match indents with
        | [] => rest
        | i :: more => map (str_drop (fold_left Nat.min more i)) rest
        end
    end in
  let lines := rev (drop_leading_blank (rev lines)) in
  let lines := drop_leading_blank lines in
  String.concat (String newline EmptyString) lines.

End Py.

Import Py.

Notation "x <- m ;; k" := (Py.bind m (fun x => k))
  (at level 61, m at next level, right associativity).
Notation "' pat <- m ;; k" := (Py.bind m (fun x => match x with pat => k end))
  (at level 61, pat pattern, m at next level, right associativity).

(** ** Data model *)

(** One cell of an observation frame: (object-type, color, door-state) codes. *)
Definition cell : Type := Z * Z * Z.

(** An observation frame, the tensor [image] of shape [rows, cols, 3]. *)
Definition image : Type := list (list cell).

Definition coord : Type := Z * Z.

(** A region is a list of coordinates; a partition pairs statements with regions. *)
Definition region : Type := list coord.
Definition partition : Type := list (string * region).

(** [collections.Counter] keyed by strings, in insertion order. *)
Definition Counter : Type := list (string * Z).

(** [entities[entry] += 1] *)
Fixpoint Counter_incr (entry : string) (entities : Counter) : Counter :=
  match entities with
  | [] => [(entry, 1)]
  | (k, v) :: rest =>
      if String.eqb k entry then (k, v + 1) :: rest
      else (k, v) :: Counter_incr entry rest
  end.

Definition Counter_keys (entities : Counter) : list string := map fst entities.

(** ** Cell, region and frame descriptions *)

Section Describers.

(** The vocabularies come from [babyai.common]; they are fixed ordered
    lookup tables, taken here as parameters. *)
Variables OBJECTS COLORS DOOR_STATES : list string.

(** [location_descriptors(image, r, c)] *)
Definition location_descriptors (img : image) (r c : Z)
  : result (string * string * string) :=
  row <- index img r ;;
  '(x, y, z) <- index row c ;;
  o <- index OBJECTS x ;;
  k <- index COLORS y ;;
  d <- index DOOR_STATES z ;;
  Ok (o, k, d).

(** [location_string(image, r, c)] *)
Definition location_string (img : image) (r c : Z) : result string :=
  '(object, color, door) <- location_descriptors img r c ;;
  if String.eqb object "unseen" then Ok "unseen"
  else if mem object ["empty"; "floor"] then Ok "empty"
  else if String.eqb object "door" then
    Ok (door ++ " " ++ color ++ " " ++ object)%string
  else Ok (color ++ " " ++ object)%string.

(** The tally loop of [region_description]. *)
Fixpoint tally (img : image) (reg : region) (entities : Counter)
  : result Counter :=
  match reg with
  | [] => Ok entities
  | (i, j) :: rest =>
      entry <- location_string img i j ;;
      tally img rest (Counter_incr entry entities)
  end.

(** ['wall' in x] where [x] is an [(entity, count)] tuple: tuple membership
    compares ['wall'] with each component; the count is an [int] and never
    equal to a string. *)
Definition tuple_mem (s : string) (x : string * Z) : bool :=
  String.eqb s (fst x) || false.

Definition walls_last_key (x : string * Z) : Z :=
  if tuple_mem "wall" x then 1 else 0.

(** The loop that renders one clause per tallied entity. *)
Fixpoint render (ents : list (string * Z)) (description : list string)
  : list string :=
  match ents with
  | [] => description
  | (entity, count) :: rest =>
      if String.eqb entity "unseen" || String.eqb entity "empty" then
        render rest description
      else if 1 <? count then
        let plural := if contains "box" entity then "es" else "s" in
        render rest
          (description ++ [(str_of_int count ++ " " ++ entity ++ plural)%string])
      else
        render rest (description ++ [("a " ++ entity)%string])
  end.

(** The grammar assembly at the end of [region_description]. *)
Definition sentence (description : list string) : result string :=
  tail <- (if 1 <? len description then
             last_clause <- index description (-1) ;;
             Ok (join ", " (all_but_last description) ++ " and " ++ last_clause)%string
           else index description 0) ;;
  first <- str_index tail 0 ;;
  let linking_verb := if String.eqb first "a" then "is" else "are" in
  Ok (linking_verb ++ " " ++ tail ++ ".")%string.

(** [region_description(image, region)] *)
Definition region_description (img : image) (reg : region) : result string :=
  entities <- tally img reg [] ;;
  if forallb (fun k => mem k ["unseen"; "empty"]) (Counter_keys entities) then
    Ok (if mem "empty" (Counter_keys entities)
        then "the space is empty."
        else "the space is not visible.")
  else
    let entities_walls_last := sorted_by walls_last_key entities in
    sentence (render entities_walls_last []).

(** The loop of [image_description]. *)
Fixpoint describe_regions (img : image) (view_partition : partition)
    (description : list string) : result (list string) :=
  match view_partition with
  | [] => Ok description
  | (statement, reg) :: rest =>
      d <- region_description img reg ;;
      describe_regions img rest (description ++ [statement] ++ [d])
  end.

(** [image_description(image, view_partition)] *)
Definition image_description (img : image) (view_partition : partition)
  : result string :=
  description <- describe_regions img view_partition ["You are in a room."] ;;
  Ok (join " " description).

End Describers.

(** Modelled from the spec: the vocabularies [OBJECTS], [COLORS] and
    [DOOR_STATES] of [babyai.common] are not part of the sources.  The spec
    describes them as fixed ordered lookup tables naming, among others, the
    objects unseen, empty, floor, door, wall, key, ball and box.  The tables
    below instantiate the parameters where a property is evaluated on a
    concrete frame. *)
Module Vocab.
Definition OBJECTS : list string :=
  ["unseen"; "empty"; "wall"; "floor"; "door"; "key"; "ball"; "box"; "goal";
   "lava"; "agent"].
Definition COLORS : list string :=
  ["red"; "green"; "blue"; "purple"; "yellow"; "grey"].
Definition DOOR_STATES : list string := ["open"; "closed"; "locked"].

Definition unseen : cell := (0, 0, 0).
Definition empty : cell := (1, 0, 0).
Definition grey_wall : cell := (2, 5, 0).
Definition red_ball : cell := (6, 0, 0).
Definition red_box : cell := (7, 0, 0).
Definition blue_key : cell := (5, 2, 0).
Definition closed_green_door : cell := (4, 1, 1).

Definition location_string := location_string OBJECTS COLORS DOOR_STATES.
Definition region_description := region_description OBJECTS COLORS DOOR_STATES.
Definition image_description := image_description OBJECTS COLORS DOOR_STATES.
End Vocab.

(** ** View partitioner *)

Definition EGO : string := "E".

Definition nl : string := String Py.newline EmptyString.

(** The template and the label map of the encoding [cardinal_diagonal]. *)
Definition cardinal_diagonal_template : string :=
  (nl ++
   "        6663777" ++ nl ++
   "        6663777" ++ nl ++
   "        6663777" ++ nl ++
   "        6663777" ++ nl ++
   "        6663777" ++ nl ++
   "        6660777" ++ nl ++
   "        441E255" ++ nl ++
   "        ")%string.

Definition cardinal_diagonal_statements : list (string * string) :=
  [ ("0", "Directly front");
    ("1", "Directly left");
    ("2", "Directly right");
    ("3", "Farther front");
    ("4", "Farther left");
    ("5", "Farther right");
    ("6", "Farther front left");
    ("7", "Farther front right") ].

(** The registry of named view encodings: a template and a label map each. *)
Definition EGO_VIEW_ENCODINGS : list (string * (string * list (string * string))) :=
  [ ("cardinal_diagonal",
     (cardinal_diagonal_template, cardinal_diagonal_statements)) ].

(** [defaultdict(list)] keyed by statements, in insertion order. *)
Definition defaultdict : Type := list (string * region).

(** [d[k].append(v)] *)
Fixpoint defaultdict_append (k : string) (v : coord) (d : defaultdict) : defaultdict :=
  match d with
  | [] => [(k, [v])]
  | (k', l) :: rest =>
      if String.eqb k' k then (k', l ++ [v]) :: rest
      else (k', l) :: defaultdict_append k v rest
  end.

(** [d[k]], which is the empty list for a key never appended to. *)
Fixpoint defaultdict_get (d : defaultdict) (k : string) : region :=
  match d with
  | [] => []
  | (k', l) :: rest => if String.eqb k' k then l else defaultdict_get rest k
  end.

Section Partitioner.

(** [VIEW_SHAPE] comes from [babyai.common]; it is a parameter here. *)
Variable VIEW_SHAPE : Z * Z.

Definition EGO_ROW : Z := fst VIEW_SHAPE - 1.
Definition EGO_COL : Z := snd VIEW_SHAPE / 2.

(** The loop over [itertools.product(range(n), range(m))]. *)
Fixpoint group_cells (encoding_labels : list string)
    (label_to_statement : list (string * string))
    (cells : list coord) (partition_dict : defaultdict) : result defaultdict :=
  match cells with
  | [] => Ok partition_dict
  | (r, c) :: rest =>
      row <- index encoding_labels r ;;
      label <- str_index row c ;;
      if String.eqb label EGO then
        group_cells encoding_labels label_to_statement rest partition_dict
      else
        statement <- dict_get label_to_statement label ;;
        group_cells encoding_labels label_to_statement rest
          (defaultdict_append statement (r, c) partition_dict)
  end.

(** The body of [make_view_partition] once the registry entry is split
    into lines. *)
Definition make_view_partition_from (encoding_labels : list string)
    (label_to_statement : list (string * string)) : result partition :=
  let n := len encoding_labels in
  first <- index encoding_labels 0 ;;
  let m := Z.of_nat (String.length first) in
  if negb (Z.eqb n (fst VIEW_SHAPE) && Z.eqb m (snd VIEW_SHAPE)) then
    Raise AssertionError
  else
    partition_dict <-
      group_cells encoding_labels label_to_statement
        (list_prod (range n) (range m)) [] ;;
    Ok (map (fun item => (snd item, defaultdict_get partition_dict (snd item)))
            (sorted tuple_ltb label_to_statement)).

(** [make_view_partition(view_encoding)] *)
Definition make_view_partition (view_encoding : string) : result partition :=
  '(encoding_labels, label_to_statement) <-
     dict_get EGO_VIEW_ENCODINGS view_encoding ;;
  let encoding_labels := split_lines (cleandoc encoding_labels) in
  make_view_partition_from encoding_labels label_to_statement.

End Partitioner.

(** ** Prompt builder *)

(** Modelled from the spec: [TaskSequence] of [datasets.formats.task_sequence]
    is not part of the sources.  The spec describes a sequence as an ordered
    list of timestep records, each exposing an observation frame and an
    action label; the record below keeps the two parts the builder reads,
    [features['images']] and the action name. *)
Record Frame : Type := {
  features_images : image;
  actions_name : string
}.

Record TaskSequence : Type := {
  sequence : list Frame
}.

(** The attributes [__init__] assigns to [self]. *)
Record TaskSequencePromptBuilder : Type := {
  self_sequence : TaskSequence;
  self_view_partition : partition;
  self_inventory_history : list (option string)
}.

(** A method runs on the object and returns it with its outcome. *)
Definition method (A : Type) : Type :=
  TaskSequencePromptBuilder -> result A * TaskSequencePromptBuilder.

Definition mret {A} (a : A) : method A := fun self => (Ok a, self).

Definition mbind {A B} (m : method A) (k : A -> method B) : method B :=
  fun self =>
    match m self with
    | (Ok a, self') => k a self'
    | (Raise e, self') => (Raise e, self')
    end.

(** Reading an attribute that [__init__] assigned. *)
Definition attr {A} (field : TaskSequencePromptBuilder -> A) : method A :=
  fun self => (Ok (field self), self).

(** Reading an attribute that no statement of the class assigns. *)
Definition missing_attr {A} (name : string) : method A :=
  fun self => (Raise AttributeError, self).

(** Running a computation that does not touch the object. *)
Definition lift {A} (r : result A) : method A := fun self => (r, self).

Notation "x <~ m ;; k" := (mbind m (fun x => k))
  (at level 61, m at next level, right associativity).

(** Truth value of an inventory entry: [None] and [''] are false. *)
Definition truthy (entry : option string) : bool :=
  match entry with
  | None => false
  | Some s => negb (String.eqb s EmptyString)
  end.

(** [range(x)] where [x] is a list: a list is not an integer. *)
Definition range_of_list {A} (x : list A) : result (list Z) := Raise TypeError.

(** [n.name] where [n] is an [int]: integers have no such attribute. *)
Definition int_attr {A} (n : Z) (name : string) : result A := Raise AttributeError.

Section Builder.

Variables OBJECTS COLORS DOOR_STATES : list string.
Variable VIEW_SHAPE : Z * Z.

(** [location_string(image)]: the call in [__init__] passes one argument
    to a function of three. *)
Definition location_string_call1 (img : image) : result string :=
  Raise TypeError.

(** The loop of [__init__] over the elements [range] yields. *)
Fixpoint inventory_loop (frames : list Z) (cur_item : option string)
    (inventory_history : list (option string))
  : result (list (option string)) :=
  match frames with
  | [] => Ok inventory_history
  | frame :: rest =>
      cur_action <- int_attr frame "actions" ;;
      cur_item <-
        (if String.eqb cur_action "pickup" then
           img <- int_attr frame "features" ;;
           item <- location_string_call1 img ;;
           Ok (Some item)
         else if String.eqb cur_action "drop" then Ok None
         else Ok cur_item) ;;
      inventory_loop rest cur_item (inventory_history ++ [cur_item])
  end.

(** [TaskSequencePromptBuilder.__init__(self, sequence, view_encoding)] *)
Definition TaskSequencePromptBuilder_init (seq : TaskSequence)
    (view_encoding : string) : result TaskSequencePromptBuilder :=
  view_partition <- make_view_partition VIEW_SHAPE view_encoding ;;
  frames <- range_of_list (sequence seq) ;;
  inventory_history <- inventory_loop frames None [] ;;
  Ok {| self_sequence := seq;
        self_view_partition := view_partition;
        self_inventory_history := inventory_history |}.

(** [TaskSequencePromptBuilder.build_prompt(self, timestamp)] *)
Definition build_prompt (timestamp : Z) : method string :=
  seq <~ attr self_sequence ;;
  frame <~ lift (index (sequence seq) timestamp) ;;
  let img := features_images frame in
  view_partition <~ attr self_view_partition ;;
  d <~ lift (image_description OBJECTS COLORS DOOR_STATES img view_partition) ;;
  let description := [d] in
  inventory_history <~ attr self_inventory_history ;;
  entry <~ lift (index inventory_history timestamp) ;;
  if truthy entry then
    inventory_item <~ missing_attr "inventory_item" ;;
    mret (join " " (description ++
                    [("You are carrying a " ++ inventory_item ++ ".")%string]))
  else
    mret (join " " (description ++ ["You are not carrying anything."])).

End Builder.

(** ** Action lookup and sample generation *)

Section Sampling.

Variables OBJECTS COLORS DOOR_STATES : list string.
Variable VIEW_SHAPE : Z * Z.

(** Modelled from the spec: [ACTIONS] of [babyai.common] is not part of the
    sources.  The spec describes it as the external action-name vocabulary
    into which the action label of a timestep is a string key; it is a
    [dict] with string keys, taken here as a parameter. *)
Variable ACTIONS : list (string * string).

(** [d.name] where [d] is a [dict]: a dictionary has keys, not attributes
    of that name. *)
Definition dict_attr {V A} (d : list (string * V)) (name : string) : result A :=
  Raise AttributeError.

(** [TaskSequencePromptBuilder.action_taken(self, timestamp)].  The
    [features] of a frame is the [dict] that [build_prompt] subscripts with
    ['images']; [action_taken] reads [.actions] on it as an attribute. *)
Definition action_taken (timestamp : Z) : method string :=
  seq <~ attr self_sequence ;;
  frame <~ lift (index (sequence seq) timestamp) ;;
  let features := [("images", features_images frame)] in
  actions <~ lift (dict_attr features "actions") ;;
  action <~ lift (dict_get actions "name") ;;
  lift (dict_get ACTIONS action).

(** What a call of [generate_env_description_sample] can raise: the
    [ValueError] of [random.randint] on an empty range, or an exception of
    the builder. *)
Inductive sample_exn : Type :=
| ValueError
| Propagated (e : exn).

(** [random.randint(a, b)]: [ValueError] when [b < a]; otherwise the integer
    the generator draws, which lies between [a] and [b]. *)
Definition randint (a b : Z) (draw : Z) : sample_exn + Z :=
  if b <? a then inl ValueError else inr draw.

(** [generate_env_description_sample(sequence, view_encoding)].  The
    attribute [sequence.n_frames] and the integer drawn by [random.randint]
    are arguments. *)
Definition generate_env_description_sample (n_frames : Z) (seq : TaskSequence)
    (view_encoding : string) (draw : Z) : sample_exn + (string * string) :=
  match randint 0 (n_frames - 1) draw with
  | inl e => inl e
  | inr timestamp =>
      match TaskSequencePromptBuilder_init VIEW_SHAPE seq view_encoding with
      | Raise e => inl (Propagated e)
      | Ok generator =>
          match build_prompt OBJECTS COLORS DOOR_STATES timestamp generator with
          | (Raise e, _) => inl (Propagated e)
          | (Ok prompt, generator) =>
              match action_taken timestamp generator with
              | (Raise e, _) => inl (Propagated e)
              | (Ok action, _) => inr (prompt, action)
              end
          end
      end
  end.

End Sampling.

(** ** Reference definitions used to state the properties *)

(** The two phrases that stand for "nothing to report". *)
Definition is_sentinel (phrase : string) : bool := mem phrase ["unseen"; "empty"].

(** The clause for one tallied phrase, as the specification words it:
    ["{count} {phrase}s"] for a count above one, with suffix ["es"] when the
    phrase contains "box", and ["a {phrase}"] for a count of one. *)
Definition spec_clause (phrase : string) (count : Z) : string :=
  if 1 <? count then
    (str_of_int count ++ " " ++ phrase ++
     (if contains "box" phrase then "es" else "s"))%string
  else ("a " ++ phrase)%string.

(** The clauses of a tally in tally order, sentinels left out. *)
Definition spec_clauses (entities : Counter) : list string :=
  map (fun x => spec_clause (fst x) (snd x))
      (filter (fun x => negb (is_sentinel (fst x))) entities).

(** The fragments of a frame description: the opening sentence, then each
    statement followed by the description of its region. *)
Definition spec_fragments (view_partition : partition) (descriptions : list string)
  : list string :=
  "You are in a room." ::
  flat_map (fun sd => [fst sd; snd sd])
           (combine (map fst view_partition) descriptions).

(** All coordinates of a partition, region after region. *)
Definition cells_of (p : partition) : list coord := concat (map snd p).

(** The label of a template cell, when the coordinate lies in the template. *)
Definition label_at (encoding_labels : list string) (rc : coord) : option ascii :=
  if (fst rc <? 0) || (snd rc <? 0) then None
  else match nth_error encoding_labels (Z.to_nat (fst rc)) with
       | Some row => String.get (Z.to_nat (snd rc)) row
       | None => None
       end.

(** A cell of the template that does not carry the ego marker. *)
Definition non_ego_cell (encoding_labels : list string) (rc : coord) : Prop :=
  exists label, label_at encoding_labels rc = Some label /\ label <> "E"%char.

(** A template and label map that fit the view shape: the template has
    lines, as many as the declared rows, every line has the declared number
    of columns, and every label other than the ego marker has a statement. *)
Definition well_formed (VIEW_SHAPE : Z * Z) (encoding_labels : list string)
    (label_to_statement : list (string * string)) : bool :=
  (0 <? len encoding_labels) &&
  (len encoding_labels =? fst VIEW_SHAPE) &&
  forallb (fun row => Z.of_nat (String.length row) =? snd VIEW_SHAPE)
          encoding_labels &&
  forallb (fun row =>
             forallb (fun label =>
                        Ascii.eqb label "E" ||
                        mem (String label EmptyString) (map fst label_to_statement))
                     (list_ascii_of_string row))
          encoding_labels.

(** The statement a template cell is filed under, if any. *)
Definition cell_statement (encoding_labels : list string)
    (label_to_statement : list (string * string)) (rc : coord) : option string :=
  match label_at encoding_labels rc with
  | Some label =>
      if String.eqb (String label EmptyString) EGO then None
      else match dict_get label_to_statement (String label EmptyString) with
           | Ok statement => Some statement
           | Raise _ => None
           end
  | None => None
  end.

(** Whether a cell is filed under the given statement. *)
Definition filed_under (encoding_labels : list string)
    (label_to_statement : list (string * string)) (statement : string)
    (rc : coord) : bool :=
  match cell_statement encoding_labels label_to_statement rc with
  | Some s => String.eqb s statement
  | None => false
  end.

Definition coord_eqb (a b : coord) : bool :=
  Z.eqb (fst a) (fst b) && Z.eqb (snd a) (snd b).

(** The regions of a partition that contain a coordinate. *)
Definition regions_containing (rc : coord) (p : partition) : partition :=
  filter (fun sr => existsb (coord_eqb rc) (snd sr)) p.

(** The sum of the counts of a tally. *)
Definition counts_total (entities : Counter) : Z :=
  fold_right (fun x acc => snd x + acc) 0 entities.

(** Whether a cell of a region reads something other than "unseen" or
    "empty" (a cell that cannot be read counts as showing something). *)
Definition shows_something (OBJECTS COLORS DOOR_STATES : list string)
    (img : image) (ij : coord) : bool :=
  match location_string OBJECTS COLORS DOOR_STATES img (fst ij) (snd ij) with
  | Ok phrase => negb (is_sentinel phrase)
  | Raise _ => true
  end.

(** A template that fits the view shape, whatever its labels: it has lines,
    as many as the declared rows, each of the declared number of columns. *)
Definition fits_shape (VIEW_SHAPE : Z * Z) (encoding_labels : list string) : bool :=
  (0 <? len encoding_labels) &&
  (len encoding_labels =? fst VIEW_SHAPE) &&
  forallb (fun row => Z.of_nat (String.length row) =? snd VIEW_SHAPE)
          encoding_labels.

(** The partition the template and label map determine: one entry per item
    of the label map in sorted order, holding the cells filed under the
    item's statement in row-major order. *)
Definition spec_partition (VIEW_SHAPE : Z * Z) (encoding_labels : list string)
    (label_to_statement : list (string * string)) : partition :=
  map (fun item =>
         (snd item,
          filter (filed_under encoding_labels label_to_statement (snd item))
                 (list_prod (range (fst VIEW_SHAPE)) (range (snd VIEW_SHAPE)))))
      (sorted tuple_ltb label_to_statement).

(** [entities[p]] on a [Counter]: the count, zero for a missing key. *)
Fixpoint Counter_get (entities : Counter) (p : string) : Z :=
  match entities with
  | [] => 0
  | (k, v) :: rest => if String.eqb k p then v else Counter_get rest p
  end.

(** The number of cells of a region that read the phrase [p]. *)
Definition cells_reading (OBJECTS COLORS DOOR_STATES : list string)
    (img : image) (reg : region) (p : string) : Z :=
  len (filter (fun ij =>
                 match location_string OBJECTS COLORS DOOR_STATES img
                         (fst ij) (snd ij) with
                 | Ok q => String.eqb q p
                 | Raise _ => false
                 end) reg).

(** The clauses put together as the specification words it: a single
    clause as it is, otherwise all but the last joined by ", " and the last
    appended after " and ". *)
Definition spec_tail (description : list string) : string :=
  match description with
  | [] => EmptyString
  | [clause] => clause
  | _ => (join ", " (removelast description) ++ " and " ++
          last description EmptyString)%string
  end.

(** An index outside a list, counting negative indices from the end. *)
Definition outside {A} (l : list A) (i : Z) : Prop :=
  len l <= i \/ i < - len l.

(** ** Sample data *)

Module Sample.
Import Vocab.

(** A 7 x 7 frame: a wall at the far end of the column in front, a red
    ball nearer in the same column, everything else empty floor. *)
Definition row_of (c : cell) : list cell :=
  [empty; empty; empty; c; empty; empty; empty].
Definition wall_then_ball : image :=
  [ row_of grey_wall; row_of empty; row_of red_ball; row_of empty;
    row_of empty; row_of empty; row_of empty ].
Definition farther_front : region := [(0, 3); (1, 3); (2, 3); (3, 3); (4, 3)].

Definition one_ball : image := [[red_ball]].
Definition front_only : partition := [("Directly front", [(0, 0)])].

Definition frame_of (img : image) (action : string) : Frame :=
  {| features_images := img; actions_name := action |}.

(** A builder over a single frame, empty-handed. *)
Definition empty_handed : TaskSequencePromptBuilder :=
  {| self_sequence := {| sequence := [frame_of one_ball "move"] |};
     self_view_partition := front_only;
     self_inventory_history := [None] |}.

(** The same builder with a trace that records a held item. *)
Definition carrying : TaskSequencePromptBuilder :=
  {| self_sequence := {| sequence := [frame_of one_ball "pickup"] |};
     self_view_partition := front_only;
     self_inventory_history := [Some "red ball"] |}.

(** The five-step sequence move, pickup, move, drop, move. *)
Definition five_steps : TaskSequence :=
  {| sequence := map (frame_of wall_then_ball)
                     ["move"; "pickup"; "move"; "drop"; "move"] |}.

Definition build_prompt := build_prompt OBJECTS COLORS DOOR_STATES.

(** The label map of [cardinal_diagonal] with both side labels given one
    statement. *)
Definition merged_sides : list (string * string) :=
  [ ("0", "Directly front"); ("1", "Directly beside"); ("2", "Directly beside");
    ("3", "Farther front"); ("4", "Farther left"); ("5", "Farther right");
    ("6", "Farther front left"); ("7", "Farther front right") ].
Definition template_lines : list string :=
  split_lines (cleandoc cardinal_diagonal_template).
End Sample.

(** * Properties *)

(** ** Facts about the Python fragment *)

Lemma index_in_range {A} (l : list A) (i : Z) :
  0 <= i < len l ->
  exists a, index l i = Ok a /\ nth_error l (Z.to_nat i) = Some a.
Proof.
  intros [Hlo Hhi]. unfold index.
  destruct (Z.ltb_spec i 0) as [Hneg | _]; [lia |].
  destruct (Z.ltb_spec i 0) as [Hneg | _]; [lia |].
  destruct (Z.leb_spec (len l) i) as [Hle | _]; [lia |]. simpl.
  destruct (nth_error l (Z.to_nat i)) as [a |] eqn:E.
  - exists a. split; reflexivity.
  - apply nth_error_None in E. unfold len in Hhi. lia.
Qed.

Lemma index_out_of_range {A} (l : list A) (i : Z) :
  len l <= i \/ i < - len l -> index l i = Raise IndexError.
Proof.
  intros H. unfold index.
  destruct (Z.ltb_spec i 0) as [Hneg | Hpos].
  - destruct (Z.ltb_spec (i + len l) 0) as [_ | Hge]; [reflexivity |].
    unfold len in *. lia.
  - destruct (Z.ltb_spec i 0) as [Hneg | _]; [lia |].
    destruct (Z.leb_spec (len l) i) as [_ | Hlt]; [reflexivity |].
    unfold len in *. lia.
Qed.

Lemma index_negative {A} (l : list A) (i : Z) :
  - len l <= i < 0 -> index l i = index l (i + len l).
Proof.
  intros [Hlo Hhi].
  assert (E1 : (i <? 0) = true) by (apply Z.ltb_lt; lia).
  assert (E2 : (i + len l <? 0) = false) by (apply Z.ltb_ge; lia).
  unfold index. rewrite E1. lazy beta iota zeta. rewrite E2.
  lazy beta iota zeta. rewrite E2. reflexivity.
Qed.

Lemma index_head {A} (x : A) (l : list A) : index (x :: l) 0 = Ok x.
Proof.
  destruct (index_in_range (x :: l) 0) as [a [Ha Hn]].
  - unfold len. simpl length. lia.
  - simpl in Hn. congruence.
Qed.

Lemma str_index_head (c : ascii) (s : string) :
  str_index (String c s) 0 = Ok (String c EmptyString).
Proof.
  unfold str_index. simpl String.length.
  destruct (Z.leb_spec (Z.of_nat (S (String.length s))) 0) as [H | _]; [lia |].
  reflexivity.
Qed.

Lemma len_nonneg {A} (l : list A) : 0 <= len l.
Proof. unfold len. lia. Qed.

(** A stable sort leaves a list alone when no element is smaller than another. *)
Lemma sorted_flat {A} (lt : A -> A -> bool) (l : list A) :
  (forall x y, In x l -> In y l -> lt x y = false) -> sorted lt l = l.
Proof.
  induction l as [| x l IH]; intros H; [reflexivity |].
  simpl. rewrite IH by (intros; apply H; right; assumption).
  destruct l as [| y l']; [reflexivity |].
  simpl. rewrite H; [reflexivity | right; left; reflexivity | left; reflexivity].
Qed.

Lemma insert_sorted_perm {A} (lt : A -> A -> bool) (x : A) (l : list A) :
  Permutation (insert_sorted lt x l) (x :: l).
Proof.
  induction l as [| y l IH]; simpl; [apply Permutation_refl |].
  destruct (lt y x).
  - eapply perm_trans; [apply perm_skip, IH | apply perm_swap].
  - apply Permutation_refl.
Qed.

Lemma sorted_perm {A} (lt : A -> A -> bool) (l : list A) :
  Permutation (sorted lt l) l.
Proof.
  induction l as [| x l IH]; simpl; [constructor |].
  eapply perm_trans; [apply insert_sorted_perm | apply perm_skip, IH].
Qed.

(** The decimal rendering of a positive integer starts with a digit. *)
Lemma str_of_int_first (n : Z) :
  0 < n ->
  exists c s, str_of_int n = String c s /\
              String.eqb (String c EmptyString) "a" = false.
Proof.
  intros Hn. destruct n as [| p | p]; try lia.
  unfold str_of_int. simpl Z.to_int. simpl NilZero.string_of_int.
  unfold NilZero.string_of_uint.
  destruct (Pos.to_uint p); simpl; eexists; eexists; split; reflexivity.
Qed.

Lemma str_app_assoc (a b c : string) : ((a ++ b) ++ c = a ++ (b ++ c))%string.
Proof. induction a as [| x a IH]; simpl; [reflexivity | now rewrite IH]. Qed.

(** A phrase built around a space is never the bare word [wall]. *)
Lemma spaced_not_wall (a b : string) : (a ++ " " ++ b)%string <> "wall".
Proof.
  intros H.
  assert (Hin : In " "%char (list_ascii_of_string (a ++ " " ++ b))).
  { clear H. induction a as [| x a IH]; simpl; [left; reflexivity | right; exact IH]. }
  rewrite H in Hin. simpl in Hin.
  repeat (destruct Hin as [Hin | Hin]; [discriminate Hin |]). exact Hin.
Qed.

(** ** Cell and region descriptions *)

Section DescriberFacts.

Variables OBJECTS COLORS DOOR_STATES : list string.


Lemma location_string_not_wall img i j p :
  location_string OBJECTS COLORS DOOR_STATES img i j = Ok p -> p <> "wall".
Proof.
  unfold location_string.
  destruct (location_descriptors OBJECTS COLORS DOOR_STATES img i j)
    as [[[object color] door] | e]; cbv beta iota delta [bind];
    [| discriminate].
  destruct (String.eqb object "unseen").
  { intros E; inversion E; subst; discriminate. }
  destruct (mem object ["empty"; "floor"]).
  { intros E; inversion E; subst; discriminate. }
  destruct (String.eqb object "door"); intros E; inversion E;
    apply spaced_not_wall.
Qed.

Lemma Counter_incr_keys entry entities k :
  In k (Counter_keys (Counter_incr entry entities)) <->
  k = entry \/ In k (Counter_keys entities).
Proof.
  induction entities as [| [k' v] rest IH]; simpl.
  - intuition.
  - destruct (String.eqb_spec k' entry) as [-> | Hne]; simpl.
    + intuition.
    + rewrite IH. intuition.
Qed.

Lemma tally_keys img reg : forall acc ents,
  tally OBJECTS COLORS DOOR_STATES img reg acc = Ok ents ->
  forall k, In k (Counter_keys ents) <->
            In k (Counter_keys acc) \/
            exists i j, In (i, j) reg /\
                        location_string OBJECTS COLORS DOOR_STATES img i j = Ok k.
Proof.
  induction reg as [| [i j] rest IH]; intros acc ents H k.
  - simpl in H. inversion H; subst. split; [auto |].
    intros [Hk | [i [j [[] _]]]]; exact Hk.
  - simpl in H.
    destruct (location_string OBJECTS COLORS DOOR_STATES img i j)
      as [entry |] eqn:E; simpl in H; [| discriminate].
    rewrite (IH _ _ H k), Counter_incr_keys. split.
    + intros [[-> | Hk] | [i' [j' [Hin Hp]]]].
      * right. exists i, j. split; [left; reflexivity | exact E].
      * left; exact Hk.
      * right. exists i', j'. split; [right; exact Hin | exact Hp].
    + intros [Hk | [i' [j' [[Heq | Hin] Hp]]]].
      * left; right; exact Hk.
      * inversion Heq; subst. left; left. congruence.
      * right. exists i', j'. split; assumption.
Qed.

Lemma tally_total img reg : forall acc,
  (forall i j, In (i, j) reg ->
     exists p, location_string OBJECTS COLORS DOOR_STATES img i j = Ok p) ->
  exists ents, tally OBJECTS COLORS DOOR_STATES img reg acc = Ok ents.
Proof.
  induction reg as [| [i j] rest IH]; intros acc H; simpl.
  - eexists; reflexivity.
  - destruct (H i j (or_introl eq_refl)) as [p Hp].
    rewrite Hp. simpl.
    apply IH. intros i' j' Hin. apply H. right; exact Hin.
Qed.

(** A region in which every cell reads [p] tallies to the single entry
    [(p, number of cells)]. *)
Lemma tally_uniform img p reg : forall c,
  (forall i j, In (i, j) reg ->
     location_string OBJECTS COLORS DOOR_STATES img i j = Ok p) ->
  tally OBJECTS COLORS DOOR_STATES img reg [(p, c)] = Ok [(p, c + len reg)].
Proof.
  induction reg as [| [i j] rest IH]; intros c H; simpl.
  - unfold len. simpl. now rewrite Z.add_0_r.
  - rewrite (H i j (or_introl eq_refl)). simpl.
    rewrite String.eqb_refl.
    rewrite IH by (intros; apply H; right; assumption).
    unfold len. simpl length. do 3 f_equal. lia.
Qed.

(** The sort by [walls_last_key] never moves an entry of a tally. *)
Lemma walls_last_identity (ents : Counter) :
  (forall k, In k (Counter_keys ents) -> k <> "wall") ->
  sorted_by walls_last_key ents = ents.
Proof.
  intros H.
  assert (K : forall x, In x ents -> walls_last_key x = 0).
  { intros x Hx. unfold walls_last_key, tuple_mem.
    destruct (String.eqb_spec "wall" (fst x)) as [E | _]; [| reflexivity].
    exfalso. apply (H (fst x)); [apply in_map; exact Hx | congruence]. }
  apply sorted_flat. intros x y Hx Hy.
  rewrite (K x Hx), (K y Hy). reflexivity.
Qed.

Lemma tally_sorted img reg ents :
  tally OBJECTS COLORS DOOR_STATES img reg [] = Ok ents ->
  sorted_by walls_last_key ents = ents.
Proof.
  intros H. apply walls_last_identity. intros k Hk.
  apply (tally_keys _ _ _ _ H) in Hk as [[] | [i [j [_ Hp]]]].
  exact (location_string_not_wall _ _ _ _ Hp).
Qed.

(** The rendering loop produces the specification's clauses. *)
Lemma render_clauses (ents : Counter) : forall description,
  render ents description = description ++ spec_clauses ents.
Proof.
  unfold spec_clauses.
  induction ents as [| [entity count] rest IH]; intros description.
  - simpl. now rewrite app_nil_r.
  - cbn [render filter fst snd]. unfold is_sentinel at 1, mem.
    cbn [existsb]. rewrite orb_false_r.
    destruct (String.eqb entity "unseen" || String.eqb entity "empty");
      cbn [negb map fst snd].
    + apply IH.
    + unfold spec_clause at 1.
      destruct (1 <? count); rewrite IH, <- app_assoc; reflexivity.
Qed.

Lemma region_description_clauses img reg ents :
  tally OBJECTS COLORS DOOR_STATES img reg [] = Ok ents ->
  forallb is_sentinel (Counter_keys ents) = false ->
  region_description OBJECTS COLORS DOOR_STATES img reg = sentence (spec_clauses ents).
Proof.
  intros Ht Hs. unfold region_description. rewrite Ht. cbv beta iota delta [bind].
  change (forallb _ (Counter_keys ents))
    with (forallb is_sentinel (Counter_keys ents)).
  rewrite Hs, (tally_sorted _ _ _ Ht), render_clauses. reflexivity.
Qed.

Lemma region_description_shortcut img reg ents :
  tally OBJECTS COLORS DOOR_STATES img reg [] = Ok ents ->
  forallb is_sentinel (Counter_keys ents) = true ->
  region_description OBJECTS COLORS DOOR_STATES img reg =
  Ok (if mem "empty" (Counter_keys ents)
      then "the space is empty." else "the space is not visible.").
Proof.
  intros Ht Hs. unfold region_description. rewrite Ht. cbv beta iota delta [bind].
  change (forallb _ (Counter_keys ents))
    with (forallb is_sentinel (Counter_keys ents)).
  rewrite Hs. reflexivity.
Qed.

End DescriberFacts.

(** C6: in a region whose cells all read "unseen" or "empty", the region
    description is exactly "the space is empty." as soon as one cell reads
    "empty", and exactly "the space is not visible." when every cell reads
    "unseen". *)
Theorem region_description_nothing_to_report
    (OBJECTS COLORS DOOR_STATES : list string) (img : image) (reg : region) :
  (forall i j, In (i, j) reg ->
     location_string OBJECTS COLORS DOOR_STATES img i j = Ok "unseen" \/
     location_string OBJECTS COLORS DOOR_STATES img i j = Ok "empty") ->
  ((exists i j, In (i, j) reg /\
      location_string OBJECTS COLORS DOOR_STATES img i j = Ok "empty") ->
   region_description OBJECTS COLORS DOOR_STATES img reg =
   Ok "the space is empty.") /\
  ((forall i j, In (i, j) reg ->
      location_string OBJECTS COLORS DOOR_STATES img i j = Ok "unseen") ->
   region_description OBJECTS COLORS DOOR_STATES img reg =
   Ok "the space is not visible.").
Proof.
  intros Hall.
  destruct (tally_total OBJECTS COLORS DOOR_STATES img reg []) as [ents Ht].
  { intros i j Hin. destruct (Hall i j Hin) as [H | H]; rewrite H; eauto. }
  pose proof (tally_keys _ _ _ _ _ _ _ Ht) as Hkeys.
  assert (Hs : forallb is_sentinel (Counter_keys ents) = true).
  { apply forallb_forall. intros k Hk.
    apply Hkeys in Hk as [[] | [i [j [Hin Hp]]]].
    destruct (Hall i j Hin) as [H | H]; rewrite H in Hp; inversion Hp; reflexivity. }
  rewrite (region_description_shortcut _ _ _ _ _ _ Ht Hs).
  split.
  - intros [i [j [Hin Hp]]].
    assert (Hm : mem "empty" (Counter_keys ents) = true).
    { apply existsb_exists. exists "empty". split; [| reflexivity].
      apply Hkeys. right. exists i, j. split; assumption. }
    rewrite Hm. reflexivity.
  - intros Hunseen.
    destruct (mem "empty" (Counter_keys ents)) eqn:Hm; [| reflexivity].
    apply existsb_exists in Hm as [k [Hk Heq]].
    apply String.eqb_eq in Heq. subst k.
    apply Hkeys in Hk as [[] | [i [j [Hin Hp]]]].
    rewrite (Hunseen i j Hin) in Hp. discriminate.
Qed.

Lemma region_description_nothing_to_report_witness :
  Vocab.region_description [[Vocab.unseen; Vocab.empty]] [(0, 0); (0, 1)] =
    Ok "the space is empty." /\
  Vocab.region_description [[Vocab.unseen; Vocab.unseen]] [(0, 0); (0, 1)] =
    Ok "the space is not visible.".
Proof.
  split.
  - apply (region_description_nothing_to_report
             Vocab.OBJECTS Vocab.COLORS Vocab.DOOR_STATES
             [[Vocab.unseen; Vocab.empty]] [(0, 0); (0, 1)]).
    + intros i j [H | [H | []]]; inversion H; subst;
        [left | right]; reflexivity.
    + exists 0, 1. split; [right; left; reflexivity | reflexivity].
  - apply (region_description_nothing_to_report
             Vocab.OBJECTS Vocab.COLORS Vocab.DOOR_STATES
             [[Vocab.unseen; Vocab.unseen]] [(0, 0); (0, 1)]).
    + intros i j [H | [H | []]]; inversion H; subst; left; reflexivity.
    + intros i j [H | [H | []]]; inversion H; subst; reflexivity.
Defined.

(** The sentence built from one clause. *)
Lemma sentence_single_a (p : string) :
  sentence [("a " ++ p)%string] = Ok ("is a " ++ p ++ ".")%string.
Proof.
  unfold sentence. change (1 <? len [("a " ++ p)%string]) with false.
  cbv beta iota. rewrite index_head. cbv beta iota delta [bind].
  change ("a " ++ p)%string with (String "a" (String " " p)).
  rewrite str_index_head. reflexivity.
Qed.

Lemma sentence_single_count (c : Z) (rest : string) :
  0 < c ->
  sentence [(str_of_int c ++ rest)%string] =
  Ok ("are " ++ str_of_int c ++ rest ++ ".")%string.
Proof.
  intros Hc. destruct (str_of_int_first c Hc) as [d [s [E Hd]]].
  unfold sentence. change (1 <? len [(str_of_int c ++ rest)%string]) with false.
  cbv beta iota. rewrite index_head. cbv beta iota delta [bind].
  rewrite E. change (String d s ++ rest)%string with (String d (s ++ rest)).
  rewrite str_index_head, Hd. cbv beta iota zeta.
  f_equal. simpl. now rewrite str_app_assoc.
Qed.

(** C7: a tallied phrase is rendered "a {phrase}" for a count of one and
    "{count} {phrase}s" for a larger count, with "es" in place of "s" when the
    phrase contains "box": the clauses of every region description are the
    specification's clauses of its tally, and a region of [n] cells that all
    read one phrase [p] is described by the single clause for [(p, n)]. *)
Theorem region_description_plurals
    (OBJECTS COLORS DOOR_STATES : list string) (img : image) (reg : region) :
  (forall ents,
     tally OBJECTS COLORS DOOR_STATES img reg [] = Ok ents ->
     forallb is_sentinel (Counter_keys ents) = false ->
     region_description OBJECTS COLORS DOOR_STATES img reg =
     sentence (spec_clauses ents)) /\
  (forall p,
     reg <> [] ->
     is_sentinel p = false ->
     (forall i j, In (i, j) reg ->
        location_string OBJECTS COLORS DOOR_STATES img i j = Ok p) ->
     region_description OBJECTS COLORS DOOR_STATES img reg =
     Ok (if (1 <? len reg)%Z
         then "are " ++ str_of_int (len reg) ++ " " ++ p ++
              (if contains "box" p then "es" else "s") ++ "."
         else "is a " ++ p ++ ".")%string).
Proof.
  split.
  - intros ents. apply region_description_clauses.
  - intros p Hne Hp Hall.
    destruct reg as [| [i j] rest]; [contradiction |].
    set (n := len _).
    assert (Hn : n = 1 + len rest) by (unfold n, len; simpl length; lia).
    assert (Hpos : 0 < n) by (pose proof (len_nonneg rest); lia).
    clearbody n.
    assert (Ht : tally OBJECTS COLORS DOOR_STATES img ((i, j) :: rest) [] =
                 Ok [(p, n)]).
    { cbn [tally]. rewrite (Hall i j (or_introl eq_refl)).
      cbv beta iota delta [bind]. cbn [Counter_incr].
      rewrite (tally_uniform OBJECTS COLORS DOOR_STATES img p rest 1)
        by (intros; apply Hall; right; assumption).
      now rewrite Hn. }
    etransitivity.
    { apply (region_description_clauses _ _ _ _ _ _ Ht).
      cbn [Counter_keys map fst forallb]. rewrite Hp. reflexivity. }
    unfold spec_clauses. cbn [filter map fst snd]. rewrite Hp.
    cbn [negb map fst snd]. unfold spec_clause.
    destruct (1 <? n).
    + rewrite sentence_single_count by exact Hpos.
      now rewrite !str_app_assoc.
    + apply sentence_single_a.
Qed.

Lemma region_description_plurals_witness :
  Vocab.region_description [[Vocab.red_box; Vocab.red_box]] [(0, 0); (0, 1)] =
    Ok "are 2 red boxes." /\
  Vocab.region_description [[Vocab.blue_key; Vocab.blue_key; Vocab.blue_key]]
    [(0, 0); (0, 1); (0, 2)] = Ok "are 3 blue keys.".
Proof.
  split.
  - apply (proj2 (region_description_plurals
                    Vocab.OBJECTS Vocab.COLORS Vocab.DOOR_STATES
                    [[Vocab.red_box; Vocab.red_box]] [(0, 0); (0, 1)])
             "red box").
    + discriminate.
    + reflexivity.
    + intros i j [H | [H | []]]; inversion H; subst; reflexivity.
  - apply (proj2 (region_description_plurals
                    Vocab.OBJECTS Vocab.COLORS Vocab.DOOR_STATES
                    [[Vocab.blue_key; Vocab.blue_key; Vocab.blue_key]]
                    [(0, 0); (0, 1); (0, 2)])
             "blue key").
    + discriminate.
    + reflexivity.
    + intros i j [H | [H | [H | []]]]; inversion H; subst; reflexivity.
Defined.

(** C4 (walls last): the sort key tests ['wall' in x] on the
    [(entity, count)] tuple, which holds only for an entity that is exactly
    "wall"; a phrase such as "grey wall" keeps its tally position.  On the
    column in front, with a wall at the far end and a ball nearer, the wall
    clause comes first. *)
Theorem region_description_wall_not_last :
  Vocab.region_description Sample.wall_then_ball Sample.farther_front =
  Ok "is a grey wall and a red ball.".
Proof. vm_compute. reflexivity. Qed.

(** ** Frame description *)

Lemma describe_regions_fragments
    (OBJECTS COLORS DOOR_STATES : list string) (img : image)
    (view_partition : partition) (descriptions : list string) :
  Forall2 (fun sr d =>
             region_description OBJECTS COLORS DOOR_STATES img (snd sr) = Ok d)
          view_partition descriptions ->
  forall acc,
    describe_regions OBJECTS COLORS DOOR_STATES img view_partition acc =
    Ok (acc ++ flat_map (fun sd => [fst sd; snd sd])
                        (combine (map fst view_partition) descriptions)).
Proof.
  induction 1 as [| [statement reg] d vp ds Hd _ IH]; intros acc.
  - simpl. now rewrite app_nil_r.
  - cbn [describe_regions]. simpl snd in Hd. rewrite Hd.
    cbv beta iota delta [bind]. rewrite IH.
    cbn [map combine flat_map fst snd]. now rewrite <- !app_assoc.
Qed.

(** C8: the frame description is the opening sentence "You are in a room."
    followed, for each (statement, region) pair in partition order, by the
    statement and the region's description, joined by single spaces; on the
    one-region partition [("Directly front", [(0,0)])] and a frame whose cell
    (0,0) decodes to a red ball it is exactly
    "You are in a room. Directly front is a red ball.". *)
Theorem image_description_layout
    (OBJECTS COLORS DOOR_STATES : list string) (img : image) :
  (forall view_partition descriptions,
     Forall2 (fun sr d =>
                region_description OBJECTS COLORS DOOR_STATES img (snd sr) = Ok d)
             view_partition descriptions ->
     image_description OBJECTS COLORS DOOR_STATES img view_partition =
     Ok (join " " (spec_fragments view_partition descriptions))) /\
  (forall door_state,
     location_descriptors OBJECTS COLORS DOOR_STATES img 0 0 =
       Ok ("ball", "red", door_state) ->
     image_description OBJECTS COLORS DOOR_STATES img [("Directly front", [(0, 0)])] =
     Ok "You are in a room. Directly front is a red ball.").
Proof.
  split.
  - intros vp ds H. unfold image_description.
    rewrite (describe_regions_fragments _ _ _ _ _ _ H). reflexivity.
  - intros door_state H.
    unfold image_description, describe_regions, region_description, tally,
      location_string.
    rewrite H. reflexivity.
Qed.

Lemma image_description_layout_witness :
  location_descriptors Vocab.OBJECTS Vocab.COLORS Vocab.DOOR_STATES
    Sample.one_ball 0 0 = Ok ("ball", "red", "open") /\
  Vocab.image_description Sample.one_ball Sample.front_only =
  Ok "You are in a room. Directly front is a red ball.".
Proof.
  split; [reflexivity |].
  apply (proj2 (image_description_layout
                  Vocab.OBJECTS Vocab.COLORS Vocab.DOOR_STATES Sample.one_ball)
           "open").
  reflexivity.
Defined.

(** C9, as the code has it: a region with no coordinates takes the
    nothing-to-report shortcut and is described as not visible. *)
Theorem region_description_empty_region
    (OBJECTS COLORS DOOR_STATES : list string) (img : image) :
  region_description OBJECTS COLORS DOOR_STATES img [] =
  Ok "the space is not visible.".
Proof. reflexivity. Qed.

(** C9 as stated fails: the call on an empty region raises nothing. *)
Lemma region_description_empty_region_counterexample :
  ~ (exists e, Vocab.region_description Sample.one_ball [] = Raise e).
Proof. intros [e H]. vm_compute in H. discriminate H. Qed.

(** ** View partition *)

Lemma in_range (n z : Z) : In z (range n) <-> 0 <= z < n.
Proof.
  unfold range. rewrite in_map_iff. split.
  - intros [k [<- Hk]]. apply in_seq in Hk. lia.
  - intros H. exists (Z.to_nat z). split; [lia | apply in_seq; lia].
Qed.

Lemma NoDup_range (n : Z) : NoDup (range n).
Proof.
  unfold range. apply Finite.Injective_map_NoDup; [| apply seq_NoDup].
  intros a b. apply Nat2Z.inj.
Qed.

Lemma NoDup_app_disjoint {A} (l1 l2 : list A) (x : A) :
  NoDup (l1 ++ l2) -> In x l1 -> ~ In x l2.
Proof.
  induction l1 as [| a l1 IH]; simpl; intros Hnd Hin; [contradiction |].
  inversion Hnd as [| ? ? Hnot Hnd']; subst.
  destruct Hin as [-> | Hin].
  - intros H2. apply Hnot, in_or_app. right; exact H2.
  - apply IH; assumption.
Qed.

Lemma NoDup_list_prod {A B} (l : list A) (l' : list B) :
  NoDup l -> NoDup l' -> NoDup (list_prod l l').
Proof.
  intros Hl Hl'. induction Hl as [| a l Hnot _ IH]; simpl; [constructor |].
  apply NoDup_app.
  - apply Finite.Injective_map_NoDup; [| exact Hl'].
    intros x y E. now inversion E.
  - exact IH.
  - intros [x y] H1 H2. apply in_map_iff in H1 as [b [E _]].
    inversion E; subst. apply in_prod_iff in H2 as [H2 _]. contradiction.
Qed.

Lemma get_some_lt (s : string) : forall k c,
  String.get k s = Some c -> (k < String.length s)%nat.
Proof.
  induction s as [| a s IH]; intros k c H; simpl in *; [discriminate |].
  destruct k as [| k]; [lia |]. apply IH in H. lia.
Qed.

Lemma get_lt_some (s : string) : forall k,
  (k < String.length s)%nat -> exists c, String.get k s = Some c.
Proof.
  induction s as [| a s IH]; intros k H; simpl in *; [lia |].
  destruct k as [| k]; [eauto |]. apply IH. lia.
Qed.

Lemma get_in (s : string) : forall k c,
  String.get k s = Some c -> In c (list_ascii_of_string s).
Proof.
  induction s as [| a s IH]; intros k c H; simpl in *; [discriminate |].
  destruct k as [| k]; [left; congruence | right; eapply IH; eassumption].
Qed.

Lemma str_index_in_range (s : string) (i : Z) :
  0 <= i < Z.of_nat (String.length s) ->
  exists c, str_index s i = Ok (String c EmptyString) /\
            String.get (Z.to_nat i) s = Some c.
Proof.
  intros [Hlo Hhi]. unfold str_index.
  assert (E1 : (i <? 0) = false) by (apply Z.ltb_ge; lia).
  assert (E2 : (Z.of_nat (String.length s) <=? i) = false) by (apply Z.leb_gt; lia).
  rewrite E1. lazy beta iota zeta. rewrite E1, E2. cbn [orb].
  destruct (get_lt_some s (Z.to_nat i)) as [c Hc]; [lia |].
  rewrite Hc. eauto.
Qed.

Lemma dict_get_in {V} (d : list (string * V)) (k : string) :
  In k (map fst d) -> exists v, dict_get d k = Ok v /\ In v (map snd d).
Proof.
  induction d as [| [k' v'] rest IH]; simpl; [contradiction |].
  intros Hin. destruct (String.eqb_spec k' k) as [-> | Hne].
  - exists v'. split; [reflexivity | left; reflexivity].
  - destruct Hin as [E | Hin]; [contradiction |].
    destruct (IH Hin) as [v [Hv Hin']]. exists v. split; [exact Hv | right; exact Hin'].
Qed.

Lemma defaultdict_get_append (k : string) (v : coord) (d : defaultdict) (s : string) :
  defaultdict_get (defaultdict_append k v d) s =
  defaultdict_get d s ++ (if String.eqb k s then [v] else []).
Proof.
  induction d as [| [k' l] rest IH]; simpl.
  - destruct (String.eqb k s); reflexivity.
  - destruct (String.eqb_spec k' k) as [-> | Hne]; simpl.
    + destruct (String.eqb k s); [reflexivity | now rewrite app_nil_r].
    + destruct (String.eqb_spec k' s) as [-> | Hne'].
      * destruct (String.eqb_spec k s) as [-> | _]; [contradiction |].
        now rewrite app_nil_r.
      * exact IH.
Qed.

Section PartitionFacts.

Variable VIEW_SHAPE : Z * Z.
Variable encoding_labels : list string.
Variable label_to_statement : list (string * string).
Hypothesis WF : well_formed VIEW_SHAPE encoding_labels label_to_statement = true.


Lemma wf_rows : 0 < len encoding_labels /\ len encoding_labels = fst VIEW_SHAPE.
Proof.
  unfold well_formed in WF. repeat rewrite andb_true_iff in WF.
  destruct WF as [[[H1 H2] _] _]. apply Z.ltb_lt in H1. apply Z.eqb_eq in H2.
  split; assumption.
Qed.

Lemma wf_cols row :
  In row encoding_labels -> Z.of_nat (String.length row) = snd VIEW_SHAPE.
Proof.
  intros Hin. unfold well_formed in WF. repeat rewrite andb_true_iff in WF.
  destruct WF as [[_ H3] _]. rewrite forallb_forall in H3.
  apply Z.eqb_eq, H3, Hin.
Qed.

Lemma wf_labels row label :
  In row encoding_labels -> In label (list_ascii_of_string row) ->
  label <> "E"%char ->
  In (String label EmptyString) (map fst label_to_statement).
Proof.
  intros Hrow Hlabel Hne. unfold well_formed in WF.
  repeat rewrite andb_true_iff in WF. destruct WF as [_ H4].
  rewrite forallb_forall in H4. specialize (H4 row Hrow).
  rewrite forallb_forall in H4. specialize (H4 label Hlabel).
  apply orb_true_iff in H4 as [H4 | H4].
  - apply Ascii.eqb_eq in H4. contradiction.
  - apply existsb_exists in H4 as [k [Hk E]].
    apply String.eqb_eq in E. now subst k.
Qed.

(** A coordinate of the product lies in the template. *)
Lemma label_at_in_range r c :
  0 <= r < len encoding_labels -> 0 <= c < snd VIEW_SHAPE ->
  exists row label,
    index encoding_labels r = Ok row /\
    str_index row c = Ok (String label EmptyString) /\
    In row encoding_labels /\
    In label (list_ascii_of_string row) /\
    label_at encoding_labels (r, c) = Some label.
Proof.
  intros Hr Hc.
  destruct (index_in_range encoding_labels r Hr) as [row [Hrow Hnth]].
  assert (Hin : In row encoding_labels) by (eapply nth_error_In; eassumption).
  destruct (str_index_in_range row c) as [label [Hlabel Hget]].
  { rewrite (wf_cols row Hin). exact Hc. }
  exists row, label. repeat split; try assumption.
  - eapply get_in; eassumption.
  - unfold label_at. cbn [fst snd].
    assert (E1 : (r <? 0) = false) by (apply Z.ltb_ge; lia).
    assert (E2 : (c <? 0) = false) by (apply Z.ltb_ge; lia).
    now rewrite E1, E2, Hnth.
Qed.

Lemma label_at_some r c label :
  label_at encoding_labels (r, c) = Some label ->
  0 <= r < len encoding_labels /\ 0 <= c < snd VIEW_SHAPE.
Proof.
  unfold label_at. cbn [fst snd].
  destruct (r <? 0) eqn:E1; [discriminate |].
  destruct (c <? 0) eqn:E2; [discriminate |]. cbn [orb].
  apply Z.ltb_ge in E1. apply Z.ltb_ge in E2.
  destruct (nth_error encoding_labels (Z.to_nat r)) as [row |] eqn:Hnth;
    [| discriminate].
  intros Hget.
  assert (Hlt : (Z.to_nat r < List.length encoding_labels)%nat).
  { apply nth_error_Some. congruence. }
  apply get_some_lt in Hget.
  rewrite <- (wf_cols row) by (eapply nth_error_In; eassumption).
  unfold len. lia.
Qed.

(** The grouping loop succeeds on cells of the template and appends each
    non-ego cell to the list of its statement. *)
Lemma group_cells_spec (cells : list coord) :
  (forall r c, In (r, c) cells ->
               0 <= r < len encoding_labels /\ 0 <= c < snd VIEW_SHAPE) ->
  forall d, exists d',
    group_cells encoding_labels label_to_statement cells d = Ok d' /\
    forall s, defaultdict_get d' s =
              defaultdict_get d s ++
              filter (filed_under encoding_labels label_to_statement s) cells.
Proof.
  induction cells as [| [r c] rest IH]; intros Hrange d.
  - exists d. split; [reflexivity |]. intros s. simpl. now rewrite app_nil_r.
  - destruct (Hrange r c (or_introl eq_refl)) as [Hr Hc].
    destruct (label_at_in_range r c Hr Hc)
      as [row [label [Hrow [Hlabel [Hin [Hin' Hat]]]]]].
    assert (Hrest : forall r' c', In (r', c') rest ->
              0 <= r' < len encoding_labels /\ 0 <= c' < snd VIEW_SHAPE)
      by (intros; apply Hrange; right; assumption).
    cbn [group_cells]. rewrite Hrow. cbv beta iota delta [bind].
    rewrite Hlabel. cbv beta iota.
    cbn [filter]. unfold filed_under at 1, cell_statement. rewrite Hat.
    destruct (String.eqb (String label EmptyString) EGO) eqn:Hego.
    + apply (IH Hrest).
    + assert (Hne : label <> "E"%char).
      { intros ->. discriminate Hego. }
      destruct (dict_get_in label_to_statement (String label EmptyString)
                  (wf_labels row label Hin Hin' Hne)) as [statement [Hget _]].
      rewrite Hget.
      destruct (IH Hrest (defaultdict_append statement (r, c) d))
        as [d' [Hd' Hspec]].
      exists d'. split; [exact Hd' |].
      intros s. rewrite Hspec, defaultdict_get_append, <- app_assoc.
      destruct (String.eqb statement s); reflexivity.
Qed.

Lemma filed_under_statement s rc :
  filed_under encoding_labels label_to_statement s rc = true <->
  cell_statement encoding_labels label_to_statement rc = Some s.
Proof.
  unfold filed_under.
  destruct (cell_statement encoding_labels label_to_statement rc) as [s' |].
  - rewrite String.eqb_eq. split; congruence.
  - split; discriminate.
Qed.

Lemma in_filed_regions (cells : list coord) (ss : list string) rc :
  In rc (concat (map (fun s =>
                        filter (filed_under encoding_labels label_to_statement s) cells)
                     ss)) <->
  In rc cells /\
  exists s, In s ss /\ filed_under encoding_labels label_to_statement s rc = true.
Proof.
  rewrite in_concat. split.
  - intros [l [Hl Hrc]]. apply in_map_iff in Hl as [s [<- Hs]].
    apply filter_In in Hrc as [Hin Hf]. eauto.
  - intros [Hin [s [Hs Hf]]].
    exists (filter (filed_under encoding_labels label_to_statement s) cells). split.
    + apply in_map_iff. eauto.
    + apply filter_In. split; assumption.
Qed.

Lemma NoDup_filed_regions (cells : list coord) (ss : list string) :
  NoDup ss -> NoDup cells ->
  NoDup (concat (map (fun s =>
                        filter (filed_under encoding_labels label_to_statement s) cells)
                     ss)).
Proof.
  intros Hss Hcells. induction Hss as [| s ss Hnot _ IH]; simpl; [constructor |].
  apply NoDup_app; [apply NoDup_filter, Hcells | exact IH |].
  intros rc H1 H2. apply filter_In in H1 as [_ H1].
  apply in_filed_regions in H2 as [_ [s' [Hs' H2]]].
  apply filed_under_statement in H1. apply filed_under_statement in H2.
  assert (s = s') by congruence. subst s'. contradiction.
Qed.

(** The cells filed under some statement are the non-ego cells. *)
Lemma non_ego_filed (ss : list string) rc :
  (forall s, In s (map snd label_to_statement) -> In s ss) ->
  non_ego_cell encoding_labels rc <->
  In rc (list_prod (range (len encoding_labels)) (range (snd VIEW_SHAPE))) /\
  exists s, In s ss /\ filed_under encoding_labels label_to_statement s rc = true.
Proof.
  intros Hss. destruct rc as [r c]. split.
  - intros [label [Hat Hne]].
    destruct (label_at_some r c label Hat) as [Hr Hc].
    split; [apply in_prod_iff; split; apply in_range; assumption |].
    destruct (label_at_in_range r c Hr Hc)
      as [row [label' [_ [_ [Hin [Hin' Hat']]]]]].
    assert (label' = label) by congruence. subst label'.
    destruct (dict_get_in label_to_statement (String label EmptyString)
                (wf_labels row label Hin Hin' Hne)) as [s [Hget Hs]].
    exists s. split; [apply Hss, Hs |].
    apply filed_under_statement. unfold cell_statement. rewrite Hat, Hget.
    destruct (String.eqb_spec (String label EmptyString) EGO) as [E | _];
      [| reflexivity].
    inversion E. contradiction.
  - intros [_ [s [_ Hf]]]. apply filed_under_statement in Hf.
    unfold cell_statement in Hf.
    destruct (label_at encoding_labels (r, c)) as [label |] eqn:Hat;
      [| discriminate].
    exists label. split; [exact Hat |]. intros ->. discriminate Hf.
Qed.

End PartitionFacts.

Lemma existsb_coord_eqb (rc : coord) (l : list coord) :
  existsb (coord_eqb rc) l = true <-> In rc l.
Proof.
  rewrite existsb_exists. split.
  - intros [x [Hin E]]. unfold coord_eqb in E.
    apply andb_true_iff in E as [E1 E2].
    apply Z.eqb_eq in E1. apply Z.eqb_eq in E2.
    destruct rc, x; simpl in *; subst; exact Hin.
  - intros Hin. exists rc. split; [exact Hin |].
    unfold coord_eqb. now rewrite !Z.eqb_refl.
Qed.

(** In a partition without repeated coordinates, a coordinate that occurs
    lies in exactly one region. *)
Lemma one_region (rc : coord) (p : partition) :
  NoDup (cells_of p) -> In rc (cells_of p) ->
  List.length (regions_containing rc p) = 1%nat.
Proof.
  unfold cells_of, regions_containing.
  induction p as [| [s reg] rest IH]; simpl; intros Hnd Hin; [contradiction |].
  destruct (existsb (coord_eqb rc) reg) eqn:E.
  - apply existsb_coord_eqb in E. simpl. f_equal.
    pose proof (NoDup_app_disjoint _ _ rc Hnd E) as Hnot.
    clear IH Hnd Hin E. induction rest as [| [s' reg'] rest IH]; [reflexivity |].
    simpl in *.
    destruct (existsb (coord_eqb rc) reg') eqn:E'.
    + exfalso. apply Hnot, in_or_app. left. now apply existsb_coord_eqb.
    + apply IH. intros H. apply Hnot, in_or_app. right; exact H.
  - apply IH; [eapply NoDup_app_remove_l; eassumption |].
    apply in_app_or in Hin as [Hin | Hin]; [| exact Hin].
    apply existsb_coord_eqb in Hin. congruence.
Qed.

(** C5, as the code has it: for a well-formed template and a label map
    whose statements are pairwise distinct, the regions form a true
    partition of the non-ego cells: every non-ego cell lies in exactly one
    region, the coordinates of the regions are exactly the non-ego cells, and
    no coordinate is listed twice. *)
Theorem make_view_partition_true_partition
    (VIEW_SHAPE : Z * Z) (encoding_labels : list string)
    (label_to_statement : list (string * string)) :
  well_formed VIEW_SHAPE encoding_labels label_to_statement = true ->
  NoDup (map snd label_to_statement) ->
  exists p,
    make_view_partition_from VIEW_SHAPE encoding_labels label_to_statement = Ok p /\
    (forall rc, non_ego_cell encoding_labels rc ->
                List.length (regions_containing rc p) = 1%nat) /\
    (forall rc, In rc (cells_of p) <-> non_ego_cell encoding_labels rc) /\
    NoDup (cells_of p).
Proof.
  intros WF Hdistinct.
  destruct (wf_rows _ _ _ WF) as [Hpos Hn].
  destruct (index_in_range encoding_labels 0) as [first [Hfirst Hnth]]; [lia |].
  assert (Hm : Z.of_nat (String.length first) = snd VIEW_SHAPE).
  { apply (wf_cols _ _ _ WF). eapply nth_error_In; eassumption. }
  set (cells := list_prod (range (len encoding_labels)) (range (snd VIEW_SHAPE))).
  destruct (group_cells_spec _ _ _ WF cells) with (d := @nil (string * region))
    as [d [Hd Hget]].
  { intros r c Hin. apply in_prod_iff in Hin as [Hr Hc].
    split; apply in_range; assumption. }
  set (items := sorted tuple_ltb label_to_statement).
  set (ss := map snd items).
  assert (Hperm : Permutation ss (map snd label_to_statement)).
  { apply Permutation_map, sorted_perm. }
  assert (Hss : NoDup ss).
  { eapply Permutation_NoDup; [apply Permutation_sym, Hperm | exact Hdistinct]. }
  set (p := map (fun item => (snd item, defaultdict_get d (snd item))) items).
  assert (Hcells : cells_of p =
                   concat (map (fun s => filter
                      (filed_under encoding_labels label_to_statement s) cells) ss)).
  { unfold cells_of, p, ss. rewrite !map_map. f_equal.
    apply map_ext. intros item. cbn [snd]. apply Hget. }
  assert (Hmem : forall rc, In rc (cells_of p) <-> non_ego_cell encoding_labels rc).
  { intros rc. rewrite Hcells, in_filed_regions.
    symmetry. apply (non_ego_filed _ _ _ WF).
    intros s Hs. eapply Permutation_in; [apply Permutation_sym, Hperm | exact Hs]. }
  assert (Hnd : NoDup (cells_of p)).
  { rewrite Hcells. apply NoDup_filed_regions; [exact Hss |].
    apply NoDup_list_prod; apply NoDup_range. }
  exists p. split; [| split; [| split]]; try assumption.
  - unfold make_view_partition_from. rewrite Hfirst.
    cbv beta iota delta [bind]. rewrite Hm, Hn, !Z.eqb_refl. cbn [andb negb].
    rewrite <- Hn. fold cells. rewrite Hd. reflexivity.
  - intros rc Hrc. apply one_region; [exact Hnd | apply Hmem, Hrc].
Qed.

Lemma make_view_partition_true_partition_witness :
  well_formed (7, 7) Sample.template_lines cardinal_diagonal_statements = true /\
  NoDup (map snd cardinal_diagonal_statements) /\
  exists p,
    make_view_partition (7, 7) "cardinal_diagonal" = Ok p /\
    (forall rc, non_ego_cell Sample.template_lines rc ->
                List.length (regions_containing rc p) = 1%nat) /\
    (forall rc, In rc (cells_of p) <-> non_ego_cell Sample.template_lines rc) /\
    NoDup (cells_of p).
Proof.
  assert (Hdistinct : NoDup (map snd cardinal_diagonal_statements))
    by (repeat constructor; simpl; intuition discriminate).
  split; [reflexivity |]. split; [exact Hdistinct |].
  apply (make_view_partition_true_partition (7, 7) Sample.template_lines
           cardinal_diagonal_statements); [reflexivity | exact Hdistinct].
Defined.

(** C5 as stated fails: with two labels given the same statement, the
    statement's region is emitted once per label, and a cell under either
    label lies in two regions. *)
Lemma make_view_partition_counterexample :
  well_formed (7, 7) Sample.template_lines Sample.merged_sides = true /\
  non_ego_cell Sample.template_lines (6, 2) /\
  exists p,
    make_view_partition_from (7, 7) Sample.template_lines Sample.merged_sides = Ok p /\
    List.length (regions_containing (6, 2) p) = 2%nat.
Proof.
  split; [reflexivity |]. split.
  - exists "1"%char. split; [reflexivity | discriminate].
  - eexists. split; reflexivity.
Qed.

(** ** Prompt builder *)

(** No call of the constructor returns a builder. *)
Lemma init_never_returns (VIEW_SHAPE : Z * Z) (seq : TaskSequence)
    (view_encoding : string) (self : TaskSequencePromptBuilder) :
  TaskSequencePromptBuilder_init VIEW_SHAPE seq view_encoding <> Ok self.
Proof.
  unfold TaskSequencePromptBuilder_init.
  destruct (make_view_partition VIEW_SHAPE view_encoding); discriminate.
Qed.

(** C1 (inventory trace): on the sequence move, pickup, move, drop, move the
    constructor raises [TypeError] at [range(sequence.sequence)] and computes
    no trace. *)
Theorem init_five_steps_raises :
  TaskSequencePromptBuilder_init (7, 7) Sample.five_steps "cardinal_diagonal" =
  Raise TypeError.
Proof. vm_compute. reflexivity. Qed.

Section BuilderFacts.

Variables OBJECTS COLORS DOOR_STATES : list string.


(** [build_prompt] leaves the builder as it found it. *)
Lemma build_prompt_pure t self :
  snd (build_prompt OBJECTS COLORS DOOR_STATES t self) = self.
Proof.
  unfold build_prompt, mbind, attr, lift, missing_attr, mret.
  destruct (index (sequence (self_sequence self)) t) as [frame |];
    [| reflexivity].
  destruct (image_description OBJECTS COLORS DOOR_STATES
              (features_images frame) (self_view_partition self));
    [| reflexivity].
  destruct (index (self_inventory_history self) t) as [entry |];
    [| reflexivity].
  destruct (truthy entry); reflexivity.
Qed.

(** The outcome of [build_prompt] in terms of the frame, the partition
    and the trace entry. *)
Lemma build_prompt_outcome t self :
  fst (build_prompt OBJECTS COLORS DOOR_STATES t self) =
  (frame <- index (sequence (self_sequence self)) t ;;
   d <- image_description OBJECTS COLORS DOOR_STATES
          (features_images frame) (self_view_partition self) ;;
   entry <- index (self_inventory_history self) t ;;
   if truthy entry then Raise AttributeError
   else Ok (join " " [d; "You are not carrying anything."])).
Proof.
  unfold build_prompt, mbind, attr, lift, missing_attr, mret.
  destruct (index (sequence (self_sequence self)) t) as [frame |];
    [| reflexivity]. cbv beta iota delta [bind].
  destruct (image_description OBJECTS COLORS DOOR_STATES
              (features_images frame) (self_view_partition self));
    [| reflexivity].
  destruct (index (self_inventory_history self) t) as [entry |];
    [| reflexivity].
  destruct (truthy entry); reflexivity.
Qed.

End BuilderFacts.

(** C2 (prompt for a timestep): at a timestep whose trace entry is an item,
    [build_prompt] reads [self.inventory_item], which the class never
    assigns, and raises [AttributeError] in place of the sentence
    "You are carrying a red ball.". *)
Theorem build_prompt_carrying_raises :
  index (self_inventory_history Sample.carrying) 0 = Ok (Some "red ball") /\
  fst (Sample.build_prompt 0 Sample.carrying) = Raise AttributeError.
Proof. split; vm_compute; reflexivity. Qed.

(** A timestamp from minus the length up to the length reads an element,
    the one counted from the end when the timestamp is negative. *)
Lemma index_in_bounds {A} (l : list A) (t : Z) :
  - len l <= t < len l ->
  exists a,
    index l t = Ok a /\
    nth_error l (Z.to_nat (if t <? 0 then t + len l else t)) = Some a.
Proof.
  intros [Hlo Hhi]. destruct (Z.ltb_spec t 0) as [Hneg | Hpos].
  - rewrite index_negative by lia. apply index_in_range. lia.
  - apply index_in_range. lia.
Qed.

(** C3, as the code has it: a timestamp at or beyond the sequence length,
    or below its negation, raises [IndexError].  A negative timestamp down
    to minus the length is not rejected: it answers as the timestamp counted
    from the end.  For every timestamp from minus the length up to the
    length, the frame and the trace entry of the addressed timestep are read,
    and when that frame can be described and the entry is empty-handed the
    prompt of that timestep is returned. *)
Theorem build_prompt_index_range
    (OBJECTS COLORS DOOR_STATES : list string)
    (self : TaskSequencePromptBuilder) (t : Z) :
  (len (sequence (self_sequence self)) <= t \/
   t < - len (sequence (self_sequence self)) ->
   fst (build_prompt OBJECTS COLORS DOOR_STATES t self) = Raise IndexError) /\
  (- len (sequence (self_sequence self)) <= t < 0 ->
   len (self_inventory_history self) = len (sequence (self_sequence self)) ->
   build_prompt OBJECTS COLORS DOOR_STATES t self =
   build_prompt OBJECTS COLORS DOOR_STATES
     (t + len (sequence (self_sequence self))) self) /\
  (- len (sequence (self_sequence self)) <= t
     < len (sequence (self_sequence self)) ->
   len (self_inventory_history self) = len (sequence (self_sequence self)) ->
   exists frame entry,
     nth_error (sequence (self_sequence self))
       (Z.to_nat (if t <? 0 then t + len (sequence (self_sequence self)) else t))
       = Some frame /\
     nth_error (self_inventory_history self)
       (Z.to_nat (if t <? 0 then t + len (sequence (self_sequence self)) else t))
       = Some entry /\
     forall d,
       image_description OBJECTS COLORS DOOR_STATES
         (features_images frame) (self_view_partition self) = Ok d ->
       truthy entry = false ->
       build_prompt OBJECTS COLORS DOOR_STATES t self =
       (Ok (d ++ " You are not carrying anything.")%string, self)).
Proof.
  split; [| split].
  - intros H. rewrite build_prompt_outcome.
    now rewrite (index_out_of_range _ _ H).
  - intros H Hlen.
    rewrite (surjective_pairing (build_prompt OBJECTS COLORS DOOR_STATES t self)).
    rewrite (surjective_pairing
               (build_prompt OBJECTS COLORS DOOR_STATES
                  (t + len (sequence (self_sequence self))) self)).
    rewrite !build_prompt_pure, !build_prompt_outcome.
    rewrite (index_negative (sequence (self_sequence self)) t H).
    rewrite (index_negative (self_inventory_history self) t)
      by (rewrite Hlen; exact H).
    now rewrite Hlen.
  - intros H Hlen.
    destruct (index_in_bounds (sequence (self_sequence self)) t H)
      as [frame [Hframe Hnth]].
    destruct (index_in_bounds (self_inventory_history self) t)
      as [entry [Hentry Hnth']]; [rewrite Hlen; exact H |].
    rewrite Hlen in Hnth'.
    exists frame, entry. split; [exact Hnth |]. split; [exact Hnth' |].
    intros d Hd Hfalse.
    rewrite (surjective_pairing (build_prompt OBJECTS COLORS DOOR_STATES t self)).
    rewrite build_prompt_pure, build_prompt_outcome.
    rewrite Hframe. cbv beta iota delta [bind].
    rewrite Hd, Hentry, Hfalse. reflexivity.
Qed.

Lemma build_prompt_index_range_witness :
  fst (Sample.build_prompt 1 Sample.empty_handed) = Raise IndexError /\
  fst (Sample.build_prompt (-2) Sample.empty_handed) = Raise IndexError /\
  Sample.build_prompt (-1) Sample.empty_handed =
  Sample.build_prompt 0 Sample.empty_handed /\
  Sample.build_prompt (-1) Sample.empty_handed =
  (Ok "You are in a room. Directly front is a red ball. You are not carrying anything.",
   Sample.empty_handed).
Proof.
  split; [| split; [| split]].
  - apply (proj1 (build_prompt_index_range
                    Vocab.OBJECTS Vocab.COLORS Vocab.DOOR_STATES
                    Sample.empty_handed 1)).
    left. vm_compute. discriminate.
  - apply (proj1 (build_prompt_index_range
                    Vocab.OBJECTS Vocab.COLORS Vocab.DOOR_STATES
                    Sample.empty_handed (-2))).
    right. vm_compute. reflexivity.
  - apply (proj1 (proj2 (build_prompt_index_range
                           Vocab.OBJECTS Vocab.COLORS Vocab.DOOR_STATES
                           Sample.empty_handed (-1)))).
    + vm_compute. split; [discriminate | reflexivity].
    + reflexivity.
  - destruct (proj2 (proj2 (build_prompt_index_range
                              Vocab.OBJECTS Vocab.COLORS Vocab.DOOR_STATES
                              Sample.empty_handed (-1))))
      as [frame [entry [Hframe [Hentry Hprompt]]]].
    + vm_compute. split; [discriminate | reflexivity].
    + reflexivity.
    + simpl in Hframe, Hentry. inversion Hframe; subst frame.
      inversion Hentry; subst entry.
      apply (Hprompt "You are in a room. Directly front is a red ball.");
        reflexivity.
Defined.

(** C3 as stated fails: on a sequence of length one, timestamp -1 returns
    the prompt of the last timestep. *)
Lemma build_prompt_minus_one_counterexample :
  len (sequence (self_sequence Sample.empty_handed)) = 1 /\
  fst (Sample.build_prompt (-1) Sample.empty_handed) =
  Ok "You are in a room. Directly front is a red ball. You are not carrying anything.".
Proof. split; vm_compute; reflexivity. Qed.

(** C10 (two calls yield identical strings): at a timestep whose trace
    entry is an item, two calls of [build_prompt], one after the other on the
    same builder, yield no string at all: each raises [AttributeError]. *)
Theorem build_prompt_twice_no_string :
  index (self_inventory_history Sample.carrying) 0 = Ok (Some "red ball") /\
  fst (Sample.build_prompt 0 Sample.carrying) = Raise AttributeError /\
  fst (Sample.build_prompt 0 (snd (Sample.build_prompt 0 Sample.carrying))) =
  Raise AttributeError.
Proof. repeat split; vm_compute; reflexivity. Qed.

(** * Further properties of the code *)

(** ** Cell descriptions *)

Lemma index_raises_index_error {A} (l : list A) (i : Z) (e : exn) :
  index l i = Raise e -> e = IndexError.
Proof.
  unfold index.
  destruct ((if i <? 0 then i + len l else i) <? 0);
    [cbn [orb]; congruence |].
  destruct (len l <=? (if i <? 0 then i + len l else i));
    [cbn [orb]; congruence |]. cbn [orb].
  destruct (nth_error l (Z.to_nat (if i <? 0 then i + len l else i)));
    congruence.
Qed.

(** A cell whose object, color or door-state code lies outside its
    vocabulary cannot be described: [location_string] raises [IndexError],
    also for a door-state code on a cell that is not a door. *)
Theorem location_string_code_outside
    (OBJECTS COLORS DOOR_STATES : list string) (img : image) (r c : Z)
    (row : list cell) (x y z : Z) :
  index img r = Ok row ->
  index row c = Ok (x, y, z) ->
  outside OBJECTS x \/ outside COLORS y \/ outside DOOR_STATES z ->
  location_string OBJECTS COLORS DOOR_STATES img r c = Raise IndexError.
Proof.
  intros Hrow Hcell Hout.
  unfold location_string, location_descriptors.
  rewrite Hrow. cbv beta iota delta [bind]. rewrite Hcell. cbv beta iota.
  destruct (index OBJECTS x) as [o | e] eqn:Ho.
  2:{ now rewrite (index_raises_index_error _ _ _ Ho). }
  destruct (index COLORS y) as [k | e] eqn:Hk.
  2:{ now rewrite (index_raises_index_error _ _ _ Hk). }
  destruct (index DOOR_STATES z) as [d | e] eqn:Hd.
  2:{ now rewrite (index_raises_index_error _ _ _ Hd). }
  exfalso. destruct Hout as [H | [H | H]].
  - rewrite (index_out_of_range _ _ H) in Ho. discriminate.
  - rewrite (index_out_of_range _ _ H) in Hk. discriminate.
  - rewrite (index_out_of_range _ _ H) in Hd. discriminate.
Qed.

Lemma location_string_code_outside_witness :
  Vocab.location_string [[(6, 0, 3)]] 0 0 = Raise IndexError.
Proof.
  apply (location_string_code_outside
           Vocab.OBJECTS Vocab.COLORS Vocab.DOOR_STATES
           [[(6, 0, 3)]] 0 0 [(6, 0, 3)] 6 0 3).
  - reflexivity.
  - reflexivity.
  - right. right. left. vm_compute. discriminate.
Defined.

(** ** Tallies *)

Lemma Counter_incr_get (entry : string) (entities : Counter) (p : string) :
  Counter_get (Counter_incr entry entities) p =
  Counter_get entities p + (if String.eqb entry p then 1 else 0).
Proof.
  induction entities as [| [k v] rest IH]; simpl.
  - destruct (String.eqb entry p); reflexivity.
  - destruct (String.eqb_spec k entry) as [-> | Hne]; simpl.
    + destruct (String.eqb entry p); lia.
    + destruct (String.eqb_spec k p) as [-> | Hne'].
      * destruct (String.eqb_spec entry p) as [-> | _]; [contradiction | lia].
      * exact IH.
Qed.

Lemma Counter_incr_NoDup (entry : string) (entities : Counter) :
  NoDup (Counter_keys entities) ->
  NoDup (Counter_keys (Counter_incr entry entities)).
Proof.
  induction entities as [| [k v] rest IH]; simpl; intros Hnd.
  - repeat constructor. intros [].
  - inversion Hnd as [| ? ? Hnot Hnd']; subst.
    destruct (String.eqb_spec k entry) as [-> | Hne]; simpl.
    + constructor; assumption.
    + constructor; [| apply IH, Hnd'].
      intros Hin. apply Counter_incr_keys in Hin as [-> | Hin]; contradiction.
Qed.

Lemma Counter_incr_positive (entry : string) (entities : Counter) :
  Forall (fun x => 0 < snd x) entities ->
  Forall (fun x => 0 < snd x) (Counter_incr entry entities).
Proof.
  induction 1 as [| [k v] rest Hv Hrest IH]; simpl.
  - repeat constructor.
  - destruct (String.eqb k entry).
    + constructor; [simpl in *; lia | assumption].
    + constructor; [exact Hv | exact IH].
Qed.

Lemma Counter_incr_total (entry : string) (entities : Counter) :
  counts_total (Counter_incr entry entities) = counts_total entities + 1.
Proof.
  induction entities as [| [k v] rest IH]; simpl; [reflexivity |].
  destruct (String.eqb k entry); simpl; lia.
Qed.

Section TallyFacts.

Variables OBJECTS COLORS DOOR_STATES : list string.
Variable img : image.

Lemma tally_invariants (reg : region) : forall acc ents,
  tally OBJECTS COLORS DOOR_STATES img reg acc = Ok ents ->
  (NoDup (Counter_keys acc) -> NoDup (Counter_keys ents)) /\
  (Forall (fun x => 0 < snd x) acc -> Forall (fun x => 0 < snd x) ents) /\
  counts_total ents = counts_total acc + len reg /\
  forall p, Counter_get ents p =
            Counter_get acc p + cells_reading OBJECTS COLORS DOOR_STATES img reg p.
Proof.
  induction reg as [| [i j] rest IH]; intros acc ents H.
  - simpl in H. inversion H; subst. unfold cells_reading, len. simpl.
    repeat split; auto; intros; lia.
  - simpl in H.
    destruct (location_string OBJECTS COLORS DOOR_STATES img i j)
      as [entry |] eqn:E; simpl in H; [| discriminate].
    destruct (IH _ _ H) as [Hnd [Hpos [Htot Hget]]].
    repeat split.
    + intros Hacc. apply Hnd, Counter_incr_NoDup, Hacc.
    + intros Hacc. apply Hpos, Counter_incr_positive, Hacc.
    + rewrite Htot, Counter_incr_total. unfold len. simpl length. lia.
    + intros p. rewrite Hget, Counter_incr_get.
      unfold cells_reading. cbn [filter fst snd]. rewrite E.
      destruct (String.eqb entry p); unfold len; simpl length; lia.
Qed.

End TallyFacts.

(** The tally of a region keeps one entry per phrase, each with a positive
    count, and the counts add up to the number of cells of the region. *)
Theorem tally_counts_cells
    (OBJECTS COLORS DOOR_STATES : list string) (img : image) (reg : region)
    (ents : Counter) :
  tally OBJECTS COLORS DOOR_STATES img reg [] = Ok ents ->
  NoDup (Counter_keys ents) /\
  Forall (fun x => 0 < snd x) ents /\
  counts_total ents = len reg.
Proof.
  intros H.
  destruct (tally_invariants _ _ _ _ _ _ _ H) as [Hnd [Hpos [Htot _]]].
  repeat split; [apply Hnd; constructor | apply Hpos; constructor | exact Htot].
Qed.

Lemma tally_counts_cells_witness :
  NoDup (Counter_keys [("red box", 2); ("grey wall", 1)]) /\
  Forall (fun x => 0 < snd x) [("red box", 2); ("grey wall", 1)] /\
  counts_total [("red box", 2); ("grey wall", 1)] = 3.
Proof.
  apply (tally_counts_cells Vocab.OBJECTS Vocab.COLORS Vocab.DOOR_STATES
           [[Vocab.red_box; Vocab.grey_wall; Vocab.red_box]]
           [(0, 0); (0, 1); (0, 2)]).
  reflexivity.
Defined.

(** Looking a phrase up in the tally of a region gives the number of cells
    of the region that read that phrase (zero for a phrase no cell reads). *)
Theorem tally_lookup
    (OBJECTS COLORS DOOR_STATES : list string) (img : image) (reg : region)
    (ents : Counter) (p : string) :
  tally OBJECTS COLORS DOOR_STATES img reg [] = Ok ents ->
  Counter_get ents p = cells_reading OBJECTS COLORS DOOR_STATES img reg p.
Proof.
  intros H.
  destruct (tally_invariants _ _ _ _ _ _ _ H) as [_ [_ [_ Hget]]].
  now rewrite Hget.
Qed.

Lemma tally_lookup_witness :
  Counter_get [("red box", 2); ("grey wall", 1)] "red box" =
  cells_reading Vocab.OBJECTS Vocab.COLORS Vocab.DOOR_STATES
    [[Vocab.red_box; Vocab.grey_wall; Vocab.red_box]]
    [(0, 0); (0, 1); (0, 2)] "red box".
Proof.
  apply (tally_lookup Vocab.OBJECTS Vocab.COLORS Vocab.DOOR_STATES
           [[Vocab.red_box; Vocab.grey_wall; Vocab.red_box]]
           [(0, 0); (0, 1); (0, 2)]).
  reflexivity.
Defined.

(** ** Region sentences *)

Lemma index_last {A} (l : list A) (a : A) : index (l ++ [a]) (-1) = Ok a.
Proof.
  rewrite index_negative.
  2:{ unfold len. rewrite length_app. simpl length. lia. }
  destruct (index_in_range (l ++ [a]) (-1 + len (l ++ [a]))) as [b [Hb Hn]].
  { unfold len. rewrite length_app. simpl length. lia. }
  rewrite Hb. f_equal.
  replace (Z.to_nat (-1 + len (l ++ [a]))) with (List.length l + 0)%nat in Hn
    by (unfold len; rewrite length_app; simpl length; lia).
  rewrite nth_error_app2 in Hn by lia.
  replace (List.length l + 0 - List.length l)%nat with 0%nat in Hn by lia.
  simpl in Hn. congruence.
Qed.

Lemma join_first (sep : string) (ch : ascii) (s : string) (l : list string) :
  exists s', join sep (String ch s :: l) = String ch s'.
Proof.
  unfold join. destruct l as [| x l]; simpl; eauto.
Qed.

(** The sentence of a non-empty clause list, given the first character of
    its first clause. *)
Lemma sentence_of_clauses (ch : ascii) (s : string) (rest : list string) :
  sentence (String ch s :: rest) =
  Ok ((if String.eqb (String ch EmptyString) "a" then "is" else "are") ++ " " ++
      spec_tail (String ch s :: rest) ++ ".")%string.
Proof.
  unfold sentence. destruct rest as [| r rs].
  - change (1 <? len [String ch s]) with false. cbv beta iota.
    rewrite index_head. cbv beta iota delta [bind].
    rewrite str_index_head. reflexivity.
  - assert (Hlen : (1 <? len (String ch s :: r :: rs)) = true).
    { apply Z.ltb_lt. unfold len. simpl length. lia. }
    rewrite Hlen.
    assert (Hlast : index (String ch s :: r :: rs) (-1) =
                    Ok (last (String ch s :: r :: rs) EmptyString)).
    { rewrite (app_removelast_last EmptyString (l := String ch s :: r :: rs)) at 1
        by discriminate.
      apply index_last. }
    rewrite Hlast. cbv beta iota delta [bind].
    unfold all_but_last.
    change (spec_tail (String ch s :: r :: rs))
      with (join ", " (removelast (String ch s :: r :: rs)) ++ " and " ++
            last (String ch s :: r :: rs) EmptyString)%string.
    change (removelast (String ch s :: r :: rs))
      with (String ch s :: removelast (r :: rs)).
    destruct (join_first ", " ch s (removelast (r :: rs))) as [s' Hs'].
    rewrite Hs'.
    change (String ch s' ++ " and " ++ last (String ch s :: r :: rs) EmptyString)%string
      with (String ch (s' ++ " and " ++ last (String ch s :: r :: rs) EmptyString)).
    rewrite str_index_head. reflexivity.
Qed.

Lemma spec_clause_first (p : string) (c : Z) :
  exists ch s, spec_clause p c = String ch s /\
               String.eqb (String ch EmptyString) "a" = negb (1 <? c).
Proof.
  unfold spec_clause. destruct (1 <? c) eqn:Hc.
  - apply Z.ltb_lt in Hc.
    destruct (str_of_int_first c) as [d [s [E Hd]]]; [lia |].
    rewrite E. simpl. eauto.
  - simpl. eauto.
Qed.

Lemma no_clauses_iff (ents : Counter) :
  spec_clauses ents = [] <-> forallb is_sentinel (Counter_keys ents) = true.
Proof.
  unfold spec_clauses, Counter_keys.
  induction ents as [| [k v] rest IH]; simpl; [tauto |].
  destruct (is_sentinel k); simpl; [exact IH |].
  split; discriminate.
Qed.

Lemma region_sentence
    (OBJECTS COLORS DOOR_STATES : list string) (img : image) (reg : region)
    (ents : Counter) (p : string) (c : Z) (more : Counter) :
  tally OBJECTS COLORS DOOR_STATES img reg [] = Ok ents ->
  filter (fun x => negb (is_sentinel (fst x))) ents = (p, c) :: more ->
  region_description OBJECTS COLORS DOOR_STATES img reg =
  Ok ((if (1 <? c)%Z then "are" else "is") ++ " " ++
      spec_tail (spec_clauses ents) ++ ".")%string.
Proof.
  intros Ht Hf.
  assert (Hclauses : spec_clauses ents =
                     spec_clause p c :: spec_clauses more).
  { unfold spec_clauses at 1. rewrite Hf. cbn [map fst snd]. f_equal.
    unfold spec_clauses. f_equal.
    assert (Hall : forall x, In x more -> negb (is_sentinel (fst x)) = true).
    { intros x Hx. assert (Hin : In x ((p, c) :: more)) by (right; exact Hx).
      rewrite <- Hf in Hin. apply filter_In in Hin. tauto. }
    clear Hf. induction more as [| y more IH]; [reflexivity |].
    simpl. rewrite (Hall y (or_introl eq_refl)). f_equal.
    apply IH. intros x Hx. apply Hall. right; exact Hx. }
  rewrite (region_description_clauses _ _ _ _ _ _ Ht).
  2:{ destruct (forallb is_sentinel (Counter_keys ents)) eqn:E; [| reflexivity].
      apply no_clauses_iff in E. rewrite E in Hclauses. discriminate. }
  rewrite Hclauses.
  destruct (spec_clause_first p c) as [ch [s [E Hch]]].
  rewrite E, sentence_of_clauses, Hch.
  destruct (1 <? c); reflexivity.
Qed.



Lemma region_description_returns
    (OBJECTS COLORS DOOR_STATES : list string) (img : image) (reg : region) :
  (forall i j, In (i, j) reg ->
     exists p, location_string OBJECTS COLORS DOOR_STATES img i j = Ok p) ->
  exists out, region_description OBJECTS COLORS DOOR_STATES img reg = Ok out.
Proof.
  intros Hall.
  destruct (tally_total OBJECTS COLORS DOOR_STATES img reg [] Hall) as [ents Ht].
  destruct (filter (fun x => negb (is_sentinel (fst x))) ents)
    as [| [p c] more] eqn:Hf.
  - assert (Hs : forallb is_sentinel (Counter_keys ents) = true).
    { apply no_clauses_iff. unfold spec_clauses. now rewrite Hf. }
    rewrite (region_description_shortcut _ _ _ _ _ _ Ht Hs). eauto.
  - rewrite (region_sentence _ _ _ _ _ _ _ _ _ Ht Hf). eauto.
Qed.

(** When every cell of a region can be read, [region_description] returns a
    string: neither [description[0]] nor [tail[0]] can fail. *)
Theorem region_description_total
    (OBJECTS COLORS DOOR_STATES : list string) (img : image) (reg : region) :
  (forall i j, In (i, j) reg ->
     exists p, location_string OBJECTS COLORS DOOR_STATES img i j = Ok p) ->
  exists out, region_description OBJECTS COLORS DOOR_STATES img reg = Ok out.
Proof. exact (region_description_returns OBJECTS COLORS DOOR_STATES img reg). Qed.

Lemma region_description_total_witness :
  exists out,
    Vocab.region_description Sample.wall_then_ball Sample.farther_front = Ok out.
Proof.
  apply (region_description_total Vocab.OBJECTS Vocab.COLORS Vocab.DOOR_STATES
           Sample.wall_then_ball Sample.farther_front).
  intros i j [H | [H | [H | [H | [H | []]]]]]; inversion H; subst;
    eexists; reflexivity.
Defined.

Lemma tally_first_failure
    (OBJECTS COLORS DOOR_STATES : list string) (img : image)
    (before : region) (i j : Z) (after : region) (e : exn) :
  (forall i' j', In (i', j') before ->
     exists p, location_string OBJECTS COLORS DOOR_STATES img i' j' = Ok p) ->
  location_string OBJECTS COLORS DOOR_STATES img i j = Raise e ->
  forall acc,
    tally OBJECTS COLORS DOOR_STATES img (before ++ (i, j) :: after) acc = Raise e.
Proof.
  intros Hbefore Hfail.
  induction before as [| [i' j'] rest IH]; intros acc; simpl.
  - now rewrite Hfail.
  - destruct (Hbefore i' j' (or_introl eq_refl)) as [p Hp]. rewrite Hp. simpl.
    apply IH. intros i'' j'' Hin. apply Hbefore. right; exact Hin.
Qed.

(** A region with a cell that cannot be read has no description:
    [region_description] raises the exception of the first such cell, even
    if every other cell reads "unseen" or "empty". *)
Theorem region_description_first_failure
    (OBJECTS COLORS DOOR_STATES : list string) (img : image)
    (before : region) (i j : Z) (after : region) (e : exn) :
  (forall i' j', In (i', j') before ->
     exists p, location_string OBJECTS COLORS DOOR_STATES img i' j' = Ok p) ->
  location_string OBJECTS COLORS DOOR_STATES img i j = Raise e ->
  region_description OBJECTS COLORS DOOR_STATES img (before ++ (i, j) :: after) =
  Raise e.
Proof.
  intros Hbefore Hfail. unfold region_description.
  now rewrite (tally_first_failure _ _ _ _ _ _ _ _ _ Hbefore Hfail).
Qed.

Lemma region_description_first_failure_witness :
  Vocab.region_description [[Vocab.unseen; Vocab.empty]] [(0, 0); (0, 2); (0, 1)] =
  Raise IndexError.
Proof.
  apply (region_description_first_failure
           Vocab.OBJECTS Vocab.COLORS Vocab.DOOR_STATES
           [[Vocab.unseen; Vocab.empty]] [(0, 0)] 0 2 [(0, 1)] IndexError).
  - intros i j [H | []]. inversion H; subst. eexists; reflexivity.
  - reflexivity.
Defined.

Lemma Counter_incr_filter (entry : string) (entities : Counter) :
  filter (fun x => negb (is_sentinel (fst x))) (Counter_incr entry entities) =
  if is_sentinel entry
  then filter (fun x => negb (is_sentinel (fst x))) entities
  else Counter_incr entry
         (filter (fun x => negb (is_sentinel (fst x))) entities).
Proof.
  induction entities as [| [k v] rest IH]; cbn [Counter_incr filter fst].
  - destruct (is_sentinel entry); reflexivity.
  - destruct (String.eqb_spec k entry) as [-> | Hne]; cbn [filter fst].
    + destruct (is_sentinel entry); cbn [negb Counter_incr].
      * reflexivity.
      * now rewrite String.eqb_refl.
    + rewrite IH.
      destruct (is_sentinel entry); [reflexivity |].
      destruct (is_sentinel k); cbn [negb Counter_incr]; [reflexivity |].
      destruct (String.eqb_spec k entry); [contradiction | reflexivity].
Qed.

Lemma filter_twice {A} (f : A -> bool) (l : list A) :
  filter f (filter f l) = filter f l.
Proof.
  induction l as [| x l IH]; simpl; [reflexivity |].
  destruct (f x) eqn:E; simpl; [rewrite E; f_equal |]; exact IH.
Qed.

Lemma tally_without_sentinels
    (OBJECTS COLORS DOOR_STATES : list string) (img : image) (reg : region) :
  forall acc ents,
    tally OBJECTS COLORS DOOR_STATES img reg acc = Ok ents ->
    tally OBJECTS COLORS DOOR_STATES img
      (filter (shows_something OBJECTS COLORS DOOR_STATES img) reg)
      (filter (fun x => negb (is_sentinel (fst x))) acc) =
    Ok (filter (fun x => negb (is_sentinel (fst x))) ents).
Proof.
  induction reg as [| [i j] rest IH]; intros acc ents H.
  - simpl in H. inversion H; subst. reflexivity.
  - simpl in H.
    destruct (location_string OBJECTS COLORS DOOR_STATES img i j)
      as [entry |] eqn:E; simpl in H; [| discriminate].
    apply IH in H. rewrite Counter_incr_filter in H.
    cbn [filter]. unfold shows_something at 1. cbn [fst snd]. rewrite E.
    destruct (is_sentinel entry); cbn [negb].
    + exact H.
    + cbn [tally]. rewrite E. exact H.
Qed.

(** Cells that read "unseen" or "empty" leave no trace in the description
    of a region that shows something: dropping them from the region gives
    the same description. *)
Theorem region_description_ignores_sentinels
    (OBJECTS COLORS DOOR_STATES : list string) (img : image) (reg : region) :
  (forall i j, In (i, j) reg ->
     exists p, location_string OBJECTS COLORS DOOR_STATES img i j = Ok p) ->
  (exists i j p, In (i, j) reg /\
     location_string OBJECTS COLORS DOOR_STATES img i j = Ok p /\
     is_sentinel p = false) ->
  region_description OBJECTS COLORS DOOR_STATES img
    (filter (shows_something OBJECTS COLORS DOOR_STATES img) reg) =
  region_description OBJECTS COLORS DOOR_STATES img reg.
Proof.
  intros Hall [i [j [p [Hin [Hp Hvis]]]]].
  destruct (tally_total OBJECTS COLORS DOOR_STATES img reg [] Hall) as [ents Ht].
  pose proof (tally_without_sentinels _ _ _ _ _ _ _ Ht) as Ht'.
  cbn [filter] in Ht'.
  assert (Hkey : In p (Counter_keys ents)).
  { apply (tally_keys _ _ _ _ _ _ _ Ht). right. exists i, j. split; assumption. }
  assert (Hs : forallb is_sentinel (Counter_keys ents) = false).
  { destruct (forallb is_sentinel (Counter_keys ents)) eqn:E; [| reflexivity].
    rewrite forallb_forall in E. rewrite (E p Hkey) in Hvis. discriminate. }
  assert (Hclauses : spec_clauses (filter (fun x => negb (is_sentinel (fst x))) ents)
                     = spec_clauses ents).
  { unfold spec_clauses. now rewrite filter_twice. }
  rewrite (region_description_clauses _ _ _ _ _ _ Ht Hs).
  rewrite (region_description_clauses _ _ _ _ _ _ Ht').
  - now rewrite Hclauses.
  - destruct (forallb is_sentinel
                (Counter_keys (filter (fun x => negb (is_sentinel (fst x))) ents)))
      eqn:E; [| reflexivity].
    apply no_clauses_iff in E. rewrite Hclauses in E.
    apply no_clauses_iff in E. congruence.
Qed.

Lemma region_description_ignores_sentinels_witness :
  Vocab.region_description Sample.wall_then_ball [(0, 3); (2, 3)] =
  Vocab.region_description Sample.wall_then_ball Sample.farther_front.
Proof.
  apply (region_description_ignores_sentinels
           Vocab.OBJECTS Vocab.COLORS Vocab.DOOR_STATES
           Sample.wall_then_ball Sample.farther_front).
  - intros i j [H | [H | [H | [H | [H | []]]]]]; inversion H; subst;
      eexists; reflexivity.
  - exists 0, 3, "grey wall". split; [left; reflexivity |].
    split; reflexivity.
Defined.

(** ** Frame descriptions *)

Lemma prefix_app (a b : string) : prefix a (a ++ b) = true.
Proof.
  induction a as [| x a IH]; simpl.
  - destruct b; reflexivity.
  - destruct (ascii_dec x x) as [_ | Hne]; [exact IH | contradiction].
Qed.

Lemma join_prefix (sep x : string) (l : list string) :
  prefix x (join sep (x :: l)) = true.
Proof.
  unfold join. destruct l as [| y l]; simpl String.concat.
  - induction x as [| c x IH]; simpl; [reflexivity |].
    destruct (ascii_dec c c) as [_ | Hne]; [exact IH | contradiction].
  - apply prefix_app.
Qed.

(** When every cell of every region of the partition can be read, the frame
    description is returned, and it begins with "You are in a room.". *)
Theorem image_description_total
    (OBJECTS COLORS DOOR_STATES : list string) (img : image)
    (view_partition : partition) :
  (forall statement reg i j,
     In (statement, reg) view_partition -> In (i, j) reg ->
     exists p, location_string OBJECTS COLORS DOOR_STATES img i j = Ok p) ->
  exists out,
    image_description OBJECTS COLORS DOOR_STATES img view_partition = Ok out /\
    prefix "You are in a room." out = true.
Proof.
  intros Hall.
  assert (Hds : exists ds,
             Forall2 (fun sr d =>
                        region_description OBJECTS COLORS DOOR_STATES img (snd sr)
                        = Ok d) view_partition ds).
  { induction view_partition as [| [statement reg] rest IH].
    - exists []. constructor.
    - destruct (region_description_returns OBJECTS COLORS DOOR_STATES img reg)
        as [d Hd].
      { intros i j Hin. apply (Hall statement reg); [left; reflexivity | exact Hin]. }
      destruct IH as [ds Hds].
      { intros s r i j Hin. apply (Hall s r). right; exact Hin. }
      exists (d :: ds). constructor; assumption. }
  destruct Hds as [ds Hds].
  unfold image_description.
  rewrite (describe_regions_fragments _ _ _ _ _ _ Hds).
  cbv beta iota delta [bind]. eexists. split; [reflexivity |].
  cbn [app]. apply join_prefix.
Qed.

Lemma image_description_total_witness :
  exists out,
    Vocab.image_description Sample.wall_then_ball
      [("Farther front", Sample.farther_front)] = Ok out /\
    prefix "You are in a room." out = true.
Proof.
  apply (image_description_total Vocab.OBJECTS Vocab.COLORS Vocab.DOOR_STATES
           Sample.wall_then_ball [("Farther front", Sample.farther_front)]).
  intros statement reg i j [H | []] Hin. inversion H; subst.
  destruct Hin as [H' | [H' | [H' | [H' | [H' | []]]]]]; inversion H'; subst;
    eexists; reflexivity.
Defined.

(** ** View partitions *)

Lemma partition_regions
    (VIEW_SHAPE : Z * Z) (encoding_labels : list string)
    (label_to_statement : list (string * string)) :
  well_formed VIEW_SHAPE encoding_labels label_to_statement = true ->
  make_view_partition_from VIEW_SHAPE encoding_labels label_to_statement =
  Ok (spec_partition VIEW_SHAPE encoding_labels label_to_statement).
Proof.
  intros WF.
  destruct (wf_rows _ _ _ WF) as [Hpos Hn].
  destruct (index_in_range encoding_labels 0) as [first [Hfirst Hnth]]; [lia |].
  assert (Hm : Z.of_nat (String.length first) = snd VIEW_SHAPE).
  { apply (wf_cols _ _ _ WF). eapply nth_error_In; eassumption. }
  destruct (group_cells_spec _ _ _ WF
              (list_prod (range (len encoding_labels)) (range (snd VIEW_SHAPE))))
    with (d := @nil (string * region)) as [d [Hd Hget]].
  { intros r c Hin. apply in_prod_iff in Hin as [Hr Hc].
    split; apply in_range; assumption. }
  unfold make_view_partition_from. rewrite Hfirst.
  cbv beta iota delta [bind]. rewrite Hm, Hn, !Z.eqb_refl. cbn [andb negb].
  rewrite <- Hn at 1. rewrite Hd. f_equal.
  unfold spec_partition. apply map_ext. intros item.
  rewrite Hget, <- Hn. reflexivity.
Qed.

(** For a well-formed template and label map the partition has one entry
    per item of the label map, in the sorted order of the items; the entry
    of an item holds, in row-major order, exactly the cells whose label maps
    to the item's statement (no cell at all for a label the template does
    not use). *)
Theorem make_view_partition_regions
    (VIEW_SHAPE : Z * Z) (encoding_labels : list string)
    (label_to_statement : list (string * string)) :
  well_formed VIEW_SHAPE encoding_labels label_to_statement = true ->
  make_view_partition_from VIEW_SHAPE encoding_labels label_to_statement =
  Ok (spec_partition VIEW_SHAPE encoding_labels label_to_statement).
Proof. exact (partition_regions VIEW_SHAPE encoding_labels label_to_statement). Qed.

Lemma make_view_partition_regions_witness :
  make_view_partition_from (7, 7) Sample.template_lines Sample.merged_sides =
  Ok (spec_partition (7, 7) Sample.template_lines Sample.merged_sides).
Proof.
  apply (make_view_partition_regions (7, 7) Sample.template_lines
           Sample.merged_sides).
  reflexivity.
Defined.

Lemma shape_mismatch_raises
    (VIEW_SHAPE : Z * Z) (first : string) (rest : list string)
    (label_to_statement : list (string * string)) :
  (len (first :: rest), Z.of_nat (String.length first)) <> VIEW_SHAPE ->
  make_view_partition_from VIEW_SHAPE (first :: rest) label_to_statement =
  Raise AssertionError.
Proof.
  intros Hne. unfold make_view_partition_from. rewrite index_head.
  cbv beta iota delta [bind].
  destruct (Z.eqb_spec (len (first :: rest)) (fst VIEW_SHAPE)) as [E1 | _];
    [| reflexivity].
  destruct (Z.eqb_spec (Z.of_nat (String.length first)) (snd VIEW_SHAPE))
    as [E2 | _]; [| reflexivity].
  exfalso. apply Hne. rewrite E1, E2. now destruct VIEW_SHAPE.
Qed.

(** The shape is checked before any label is looked up: a template whose
    number of lines or whose first line's length differs from [VIEW_SHAPE]
    raises [AssertionError], whatever the label map. *)
Theorem make_view_partition_shape_mismatch
    (VIEW_SHAPE : Z * Z) (first : string) (rest : list string)
    (label_to_statement : list (string * string)) :
  (len (first :: rest), Z.of_nat (String.length first)) <> VIEW_SHAPE ->
  make_view_partition_from VIEW_SHAPE (first :: rest) label_to_statement =
  Raise AssertionError.
Proof. exact (shape_mismatch_raises VIEW_SHAPE first rest label_to_statement). Qed.

Lemma make_view_partition_shape_mismatch_witness :
  make_view_partition_from (7, 7) ["0E1"] [] = Raise AssertionError.
Proof.
  apply (make_view_partition_shape_mismatch (7, 7) "0E1" [] []).
  vm_compute. discriminate.
Defined.

Lemma dict_get_ok_in {V} (d : list (string * V)) (k : string) (v : V) :
  dict_get d k = Ok v -> In k (map fst d).
Proof.
  induction d as [| [k' v'] rest IH]; simpl; [discriminate |].
  destruct (String.eqb_spec k' k) as [-> | _]; [left; reflexivity |].
  intros H. right. apply IH, H.
Qed.

Lemma dict_get_raises_key_error {V} (d : list (string * V)) (k : string) (e : exn) :
  dict_get d k = Raise e -> e = KeyError.
Proof.
  induction d as [| [k' v'] rest IH]; simpl; [congruence |].
  destruct (String.eqb k' k); [discriminate | exact IH].
Qed.

Lemma dict_get_unique {V} (d : list (string * V)) (k : string) (v : V) :
  NoDup (map fst d) -> In (k, v) d -> dict_get d k = Ok v.
Proof.
  induction d as [| [k' v'] rest IH]; simpl; [contradiction |].
  intros Hnd Hin. inversion Hnd as [| ? ? Hnot Hnd']; subst.
  destruct Hin as [E | Hin].
  - inversion E; subst. now rewrite String.eqb_refl.
  - destruct (String.eqb_spec k' k) as [-> | _]; [| apply IH; assumption].
    exfalso. apply Hnot. apply in_map_iff. exists (k, v).
    split; [reflexivity | exact Hin].
Qed.

Section ShapeFacts.

Variable VIEW_SHAPE : Z * Z.
Variable encoding_labels : list string.
Variable label_to_statement : list (string * string).
Hypothesis FS : fits_shape VIEW_SHAPE encoding_labels = true.

Lemma fits_rows : 0 < len encoding_labels /\ len encoding_labels = fst VIEW_SHAPE.
Proof.
  unfold fits_shape in FS. repeat rewrite andb_true_iff in FS.
  destruct FS as [[H1 H2] _]. apply Z.ltb_lt in H1. apply Z.eqb_eq in H2.
  split; assumption.
Qed.

Lemma fits_cols row :
  In row encoding_labels -> Z.of_nat (String.length row) = snd VIEW_SHAPE.
Proof.
  intros Hin. unfold fits_shape in FS. repeat rewrite andb_true_iff in FS.
  destruct FS as [_ H3]. rewrite forallb_forall in H3.
  apply Z.eqb_eq, H3, Hin.
Qed.

Lemma template_cell r c :
  0 <= r < len encoding_labels -> 0 <= c < snd VIEW_SHAPE ->
  exists row label,
    index encoding_labels r = Ok row /\
    str_index row c = Ok (String label EmptyString) /\
    label_at encoding_labels (r, c) = Some label.
Proof.
  intros Hr Hc.
  destruct (index_in_range encoding_labels r Hr) as [row [Hrow Hnth]].
  assert (Hin : In row encoding_labels) by (eapply nth_error_In; eassumption).
  destruct (str_index_in_range row c) as [label [Hlabel Hget]].
  { rewrite (fits_cols row Hin). exact Hc. }
  exists row, label. repeat split; try assumption.
  unfold label_at. cbn [fst snd].
  assert (E1 : (r <? 0) = false) by (apply Z.ltb_ge; lia).
  assert (E2 : (c <? 0) = false) by (apply Z.ltb_ge; lia).
  now rewrite E1, E2, Hnth.
Qed.

Lemma template_cell_range r c label :
  label_at encoding_labels (r, c) = Some label ->
  0 <= r < len encoding_labels /\ 0 <= c < snd VIEW_SHAPE.
Proof.
  unfold label_at. cbn [fst snd].
  destruct (r <? 0) eqn:E1; [discriminate |].
  destruct (c <? 0) eqn:E2; [discriminate |]. cbn [orb].
  apply Z.ltb_ge in E1. apply Z.ltb_ge in E2.
  destruct (nth_error encoding_labels (Z.to_nat r)) as [row |] eqn:Hnth;
    [| discriminate].
  intros Hget.
  assert (Hlt : (Z.to_nat r < List.length encoding_labels)%nat).
  { apply nth_error_Some. congruence. }
  apply get_some_lt in Hget.
  rewrite <- (fits_cols row) by (eapply nth_error_In; eassumption).
  unfold len. lia.
Qed.

(** The grouping loop stops with [KeyError] when one of its cells carries a
    label that is neither the ego marker nor a key of the label map. *)
Lemma group_cells_unknown_label (cells : list coord) :
  (forall r c, In (r, c) cells ->
               0 <= r < len encoding_labels /\ 0 <= c < snd VIEW_SHAPE) ->
  (exists r c label,
     In (r, c) cells /\ label_at encoding_labels (r, c) = Some label /\
     label <> "E"%char /\
     ~ In (String label EmptyString) (map fst label_to_statement)) ->
  forall d,
    group_cells encoding_labels label_to_statement cells d = Raise KeyError.
Proof.
  induction cells as [| [r c] rest IH]; intros Hrange Hbad d.
  - destruct Hbad as [? [? [? [[] _]]]].
  - destruct (Hrange r c (or_introl eq_refl)) as [Hr Hc].
    destruct (template_cell r c Hr Hc) as [row [label [Hrow [Hlabel Hat]]]].
    assert (Hrest : forall r' c', In (r', c') rest ->
              0 <= r' < len encoding_labels /\ 0 <= c' < snd VIEW_SHAPE)
      by (intros; apply Hrange; right; assumption).
    cbn [group_cells]. rewrite Hrow. cbv beta iota delta [bind].
    rewrite Hlabel. cbv beta iota.
    destruct Hbad as [r0 [c0 [label0 [Hin [Hat0 [Hne Hmiss]]]]]].
    destruct (String.eqb_spec (String label EmptyString) EGO) as [Hego | Hnego].
    + apply IH; [exact Hrest |].
      destruct Hin as [E | Hin]; [| exists r0, c0, label0; auto].
      inversion E; subst. rewrite Hat in Hat0. inversion Hat0; subst.
      inversion Hego. contradiction.
    + destruct (dict_get label_to_statement (String label EmptyString))
        as [statement | e] eqn:Hget.
      * apply IH; [exact Hrest |].
        destruct Hin as [E | Hin]; [| exists r0, c0, label0; auto].
        inversion E; subst. rewrite Hat in Hat0. inversion Hat0; subst.
        exfalso. apply Hmiss. eapply dict_get_ok_in; eassumption.
      * now rewrite (dict_get_raises_key_error _ _ _ Hget).
Qed.

End ShapeFacts.

(** A template of the right shape that uses a label other than the ego
    marker without an entry in the label map is refused with [KeyError]. *)
Theorem make_view_partition_unknown_label
    (VIEW_SHAPE : Z * Z) (encoding_labels : list string)
    (label_to_statement : list (string * string)) (rc : coord) (label : ascii) :
  fits_shape VIEW_SHAPE encoding_labels = true ->
  label_at encoding_labels rc = Some label ->
  label <> "E"%char ->
  ~ In (String label EmptyString) (map fst label_to_statement) ->
  make_view_partition_from VIEW_SHAPE encoding_labels label_to_statement =
  Raise KeyError.
Proof.
  intros FS Hat Hne Hmiss. destruct rc as [r c].
  destruct (fits_rows _ _ FS) as [Hpos Hn].
  destruct (index_in_range encoding_labels 0) as [first [Hfirst Hnth]]; [lia |].
  assert (Hm : Z.of_nat (String.length first) = snd VIEW_SHAPE).
  { apply (fits_cols _ _ FS). eapply nth_error_In; eassumption. }
  destruct (template_cell_range _ _ FS r c label Hat) as [Hr Hc].
  unfold make_view_partition_from. rewrite Hfirst.
  cbv beta iota delta [bind]. rewrite Hm, Hn, !Z.eqb_refl. cbn [andb negb].
  rewrite <- Hn.
  rewrite (group_cells_unknown_label _ _ label_to_statement FS); [reflexivity | |].
  - intros r' c' Hin. apply in_prod_iff in Hin as [Hr' Hc'].
    split; apply in_range; assumption.
  - exists r, c, label. repeat split; try assumption.
    apply in_prod_iff. split; apply in_range; assumption.
Qed.

Lemma make_view_partition_unknown_label_witness :
  make_view_partition_from (1, 3) ["0E1"] [("0", "Directly left")] =
  Raise KeyError.
Proof.
  apply (make_view_partition_unknown_label (1, 3) ["0E1"]
           [("0", "Directly left")] (0, 2) "1"%char).
  - reflexivity.
  - reflexivity.
  - discriminate.
  - simpl. intros [H | []]. discriminate H.
Defined.

Lemma registry_outcomes (VIEW_SHAPE : Z * Z) (view_encoding : string) :
  (view_encoding <> "cardinal_diagonal" ->
   make_view_partition VIEW_SHAPE view_encoding = Raise KeyError) /\
  (VIEW_SHAPE <> (7, 7) ->
   make_view_partition VIEW_SHAPE "cardinal_diagonal" = Raise AssertionError) /\
  (VIEW_SHAPE = (7, 7) ->
   exists p, make_view_partition VIEW_SHAPE "cardinal_diagonal" = Ok p /\
             map fst p = map snd cardinal_diagonal_statements).
Proof.
  split; [| split].
  - intros Hne. unfold make_view_partition, EGO_VIEW_ENCODINGS. cbn [dict_get].
    destruct (String.eqb_spec "cardinal_diagonal" view_encoding) as [E | _];
      [congruence | reflexivity].
  - intros Hne.
    change (make_view_partition VIEW_SHAPE "cardinal_diagonal")
      with (make_view_partition_from VIEW_SHAPE
              (split_lines (cleandoc cardinal_diagonal_template))
              cardinal_diagonal_statements).
    assert (E : split_lines (cleandoc cardinal_diagonal_template) =
                "6663777" :: ["6663777"; "6663777"; "6663777"; "6663777";
                              "6660777"; "441E255"])
      by (vm_compute; reflexivity).
    rewrite E. apply shape_mismatch_raises.
    intros H. apply Hne. rewrite <- H. reflexivity.
  - intros ->. eexists. split; vm_compute; reflexivity.
Qed.

(** The registry knows one encoding: any other name raises [KeyError];
    [cardinal_diagonal] raises [AssertionError] unless [VIEW_SHAPE] is
    (7, 7), and then yields one region per statement of its label map, in the
    order of the labels 0 to 7. *)
Theorem make_view_partition_registry (VIEW_SHAPE : Z * Z) (view_encoding : string) :
  (view_encoding <> "cardinal_diagonal" ->
   make_view_partition VIEW_SHAPE view_encoding = Raise KeyError) /\
  (VIEW_SHAPE <> (7, 7) ->
   make_view_partition VIEW_SHAPE "cardinal_diagonal" = Raise AssertionError) /\
  (VIEW_SHAPE = (7, 7) ->
   exists p, make_view_partition VIEW_SHAPE "cardinal_diagonal" = Ok p /\
             map fst p = map snd cardinal_diagonal_statements).
Proof. exact (registry_outcomes VIEW_SHAPE view_encoding). Qed.

Lemma make_view_partition_registry_witness :
  make_view_partition (7, 7) "cardinal" = Raise KeyError /\
  make_view_partition (5, 5) "cardinal_diagonal" = Raise AssertionError /\
  exists p, make_view_partition (7, 7) "cardinal_diagonal" = Ok p /\
            map fst p = map snd cardinal_diagonal_statements.
Proof.
  split; [| split].
  - apply (proj1 (make_view_partition_registry (7, 7) "cardinal")). discriminate.
  - apply (proj1 (proj2 (make_view_partition_registry (5, 5) "cardinal"))).
    discriminate.
  - apply (proj2 (proj2 (make_view_partition_registry (7, 7) "cardinal"))).
    reflexivity.
Defined.

(** ** Prompt builder, action lookup and sample generation *)

(** At a timestep whose trace entry is [None] (or an empty string),
    [build_prompt] returns the frame description and the sentence
    "You are not carrying anything.", joined by one space, and leaves the
    builder unchanged. *)
Theorem build_prompt_empty_handed
    (OBJECTS COLORS DOOR_STATES : list string)
    (self : TaskSequencePromptBuilder) (t : Z)
    (frame : Frame) (d : string) (entry : option string) :
  index (sequence (self_sequence self)) t = Ok frame ->
  image_description OBJECTS COLORS DOOR_STATES
    (features_images frame) (self_view_partition self) = Ok d ->
  index (self_inventory_history self) t = Ok entry ->
  truthy entry = false ->
  build_prompt OBJECTS COLORS DOOR_STATES t self =
  (Ok (d ++ " You are not carrying anything.")%string, self).
Proof.
  intros Hframe Hd Hentry Hfalse.
  rewrite (surjective_pairing (build_prompt OBJECTS COLORS DOOR_STATES t self)).
  rewrite build_prompt_pure, build_prompt_outcome.
  rewrite Hframe. cbv beta iota delta [bind].
  rewrite Hd, Hentry, Hfalse. reflexivity.
Qed.

Lemma build_prompt_empty_handed_witness :
  Sample.build_prompt 0 Sample.empty_handed =
  (Ok "You are in a room. Directly front is a red ball. You are not carrying anything.",
   Sample.empty_handed).
Proof.
  apply (build_prompt_empty_handed Vocab.OBJECTS Vocab.COLORS Vocab.DOOR_STATES
           Sample.empty_handed 0 (Sample.frame_of Sample.one_ball "move")
           "You are in a room. Directly front is a red ball." None);
    reflexivity.
Defined.

(** At every timestep whose frame can be described and whose trace entry is
    a non-empty item, [build_prompt] raises [AttributeError] and returns no
    prompt. *)
Theorem build_prompt_item_raises
    (OBJECTS COLORS DOOR_STATES : list string)
    (self : TaskSequencePromptBuilder) (t : Z)
    (frame : Frame) (d : string) (item : string) :
  index (sequence (self_sequence self)) t = Ok frame ->
  image_description OBJECTS COLORS DOOR_STATES
    (features_images frame) (self_view_partition self) = Ok d ->
  index (self_inventory_history self) t = Ok (Some item) ->
  item <> EmptyString ->
  build_prompt OBJECTS COLORS DOOR_STATES t self = (Raise AttributeError, self).
Proof.
  intros Hframe Hd Hentry Hne.
  rewrite (surjective_pairing (build_prompt OBJECTS COLORS DOOR_STATES t self)).
  rewrite build_prompt_pure, build_prompt_outcome.
  rewrite Hframe. cbv beta iota delta [bind]. rewrite Hd, Hentry.
  unfold truthy. destruct (String.eqb_spec item EmptyString) as [E | _];
    [contradiction | reflexivity].
Qed.

Lemma build_prompt_item_raises_witness :
  Sample.build_prompt 0 Sample.carrying = (Raise AttributeError, Sample.carrying).
Proof.
  apply (build_prompt_item_raises Vocab.OBJECTS Vocab.COLORS Vocab.DOOR_STATES
           Sample.carrying 0 (Sample.frame_of Sample.one_ball "pickup")
           "You are in a room. Directly front is a red ball." "red ball");
    try reflexivity.
  discriminate.
Defined.

Lemma init_outcomes
    (VIEW_SHAPE : Z * Z) (seq : TaskSequence) (view_encoding : string) :
  (exists e, TaskSequencePromptBuilder_init VIEW_SHAPE seq view_encoding = Raise e) /\
  (view_encoding <> "cardinal_diagonal" ->
   TaskSequencePromptBuilder_init VIEW_SHAPE seq view_encoding = Raise KeyError) /\
  (VIEW_SHAPE <> (7, 7) ->
   TaskSequencePromptBuilder_init VIEW_SHAPE seq "cardinal_diagonal" =
   Raise AssertionError) /\
  (VIEW_SHAPE = (7, 7) ->
   TaskSequencePromptBuilder_init VIEW_SHAPE seq "cardinal_diagonal" =
   Raise TypeError).
Proof.
  destruct (registry_outcomes VIEW_SHAPE view_encoding)
    as [Hkey _].
  destruct (registry_outcomes VIEW_SHAPE "cardinal_diagonal")
    as [_ [Hassert Hok]].
  unfold TaskSequencePromptBuilder_init.
  split; [| split; [| split]].
  - destruct (make_view_partition VIEW_SHAPE view_encoding); eexists; reflexivity.
  - intros Hne. now rewrite (Hkey Hne).
  - intros Hne. now rewrite (Hassert Hne).
  - intros E. destruct (Hok E) as [p [Hp _]]. now rewrite Hp.
Qed.

(** The constructor returns no builder for any sequence and encoding: it
    raises [KeyError] for an encoding that is not registered,
    [AssertionError] for [cardinal_diagonal] under a view shape other than
    (7, 7), and [TypeError] under the shape (7, 7). *)
Theorem init_always_raises
    (VIEW_SHAPE : Z * Z) (seq : TaskSequence) (view_encoding : string) :
  (exists e, TaskSequencePromptBuilder_init VIEW_SHAPE seq view_encoding = Raise e) /\
  (view_encoding <> "cardinal_diagonal" ->
   TaskSequencePromptBuilder_init VIEW_SHAPE seq view_encoding = Raise KeyError) /\
  (VIEW_SHAPE <> (7, 7) ->
   TaskSequencePromptBuilder_init VIEW_SHAPE seq "cardinal_diagonal" =
   Raise AssertionError) /\
  (VIEW_SHAPE = (7, 7) ->
   TaskSequencePromptBuilder_init VIEW_SHAPE seq "cardinal_diagonal" =
   Raise TypeError).
Proof. exact (init_outcomes VIEW_SHAPE seq view_encoding). Qed.

Lemma init_always_raises_witness :
  TaskSequencePromptBuilder_init (7, 7) Sample.five_steps "cardinal" =
    Raise KeyError /\
  TaskSequencePromptBuilder_init (5, 5) Sample.five_steps "cardinal_diagonal" =
    Raise AssertionError /\
  TaskSequencePromptBuilder_init (7, 7) Sample.five_steps "cardinal_diagonal" =
    Raise TypeError.
Proof.
  split; [| split].
  - apply (proj1 (proj2 (init_always_raises (7, 7) Sample.five_steps "cardinal"))).
    discriminate.
  - apply (proj1 (proj2 (proj2
             (init_always_raises (5, 5) Sample.five_steps "cardinal")))).
    discriminate.
  - apply (proj2 (proj2 (proj2
             (init_always_raises (7, 7) Sample.five_steps "cardinal")))).
    reflexivity.
Defined.

(** [action_taken] returns no action name: a timestamp outside the
    sequence raises [IndexError], and every other timestamp raises
    [AttributeError], because [.actions] is read as an attribute of the
    [features] dictionary; [ACTIONS] is never consulted and the builder is
    left unchanged. *)
Theorem action_taken_outcomes
    (ACTIONS : list (string * string))
    (self : TaskSequencePromptBuilder) (t : Z) :
  (outside (sequence (self_sequence self)) t ->
   action_taken ACTIONS t self = (Raise IndexError, self)) /\
  (- len (sequence (self_sequence self)) <= t
     < len (sequence (self_sequence self)) ->
   action_taken ACTIONS t self = (Raise AttributeError, self)).
Proof.
  unfold action_taken, mbind, attr, lift, dict_attr. split.
  - intros H. now rewrite (index_out_of_range _ _ H).
  - intros H.
    destruct (index_in_bounds (sequence (self_sequence self)) t H)
      as [frame [Hframe _]].
    now rewrite Hframe.
Qed.

Lemma action_taken_outcomes_witness :
  action_taken [("move", "move forward")] 1 Sample.empty_handed =
    (Raise IndexError, Sample.empty_handed) /\
  action_taken [("move", "move forward")] 0 Sample.empty_handed =
    (Raise AttributeError, Sample.empty_handed) /\
  action_taken [("move", "move forward")] (-1) Sample.empty_handed =
    (Raise AttributeError, Sample.empty_handed).
Proof.
  split; [| split].
  - apply (proj1 (action_taken_outcomes [("move", "move forward")]
                    Sample.empty_handed 1)).
    left. vm_compute. discriminate.
  - apply (proj2 (action_taken_outcomes [("move", "move forward")]
                    Sample.empty_handed 0)).
    vm_compute. split; [discriminate | reflexivity].
  - apply (proj2 (action_taken_outcomes [("move", "move forward")]
                    Sample.empty_handed (-1))).
    vm_compute. split; [discriminate | reflexivity].
Defined.

(** [generate_env_description_sample] returns no sample, whatever integer
    is drawn: with no frame to draw from it raises [ValueError], and
    otherwise the exception of the constructor reaches the caller. *)
Theorem generate_sample_never_returns
    (OBJECTS COLORS DOOR_STATES : list string) (VIEW_SHAPE : Z * Z)
    (ACTIONS : list (string * string))
    (n_frames : Z) (seq : TaskSequence) (view_encoding : string) (draw : Z) :
  (n_frames <= 0 ->
   generate_env_description_sample OBJECTS COLORS DOOR_STATES VIEW_SHAPE ACTIONS
     n_frames seq view_encoding draw = inl ValueError) /\
  (0 < n_frames ->
   exists e,
     TaskSequencePromptBuilder_init VIEW_SHAPE seq view_encoding = Raise e /\
     generate_env_description_sample OBJECTS COLORS DOOR_STATES VIEW_SHAPE ACTIONS
       n_frames seq view_encoding draw = inl (Propagated e)).
Proof.
  unfold generate_env_description_sample, randint. split.
  - intros H. destruct (Z.ltb_spec (n_frames - 1) 0) as [_ | Hge];
      [reflexivity | lia].
  - intros H. destruct (Z.ltb_spec (n_frames - 1) 0) as [Hlt | _]; [lia |].
    destruct (init_outcomes VIEW_SHAPE seq view_encoding) as [[e He] _].
    exists e. split; [exact He | now rewrite He].
Qed.

Lemma generate_sample_never_returns_witness :
  generate_env_description_sample Vocab.OBJECTS Vocab.COLORS Vocab.DOOR_STATES
    (7, 7) [("move", "move forward")] 0 {| sequence := [] |}
    "cardinal_diagonal" 0 = inl ValueError /\
  exists e,
    TaskSequencePromptBuilder_init (7, 7) Sample.five_steps "cardinal_diagonal" =
      Raise e /\
    generate_env_description_sample Vocab.OBJECTS Vocab.COLORS Vocab.DOOR_STATES
      (7, 7) [("move", "move forward")] 5 Sample.five_steps
      "cardinal_diagonal" 3 = inl (Propagated e).
Proof.
  split.
  - apply (proj1 (generate_sample_never_returns
                    Vocab.OBJECTS Vocab.COLORS Vocab.DOOR_STATES (7, 7)
                    [("move", "move forward")] 0 {| sequence := [] |}
                    "cardinal_diagonal" 0)).
    lia.
  - apply (proj2 (generate_sample_never_returns
                    Vocab.OBJECTS Vocab.COLORS Vocab.DOOR_STATES (7, 7)
                    [("move", "move forward")] 5 Sample.five_steps
                    "cardinal_diagonal" 3)).
    lia.
Defined.

(** ** Order of the label map *)

Lemma string_trichotomy (a b : string) :
  OrderedTypeEx.String_as_OT.lt a b \/ a = b \/
  OrderedTypeEx.String_as_OT.lt b a.
Proof.
  destruct (String.compare a b) eqn:E.
  - right; left. now apply OrderedTypeEx.String_as_OT.cmp_eq.
  - left. now apply OrderedTypeEx.String_as_OT.cmp_lt.
  - right; right. apply OrderedTypeEx.String_as_OT.cmp_lt.
    change (String.compare b a = Lt).
    rewrite String.compare_antisym, E. reflexivity.
Qed.

Lemma slt_irrefl (a : string) : ~ OrderedTypeEx.String_as_OT.lt a a.
Proof.
  intros H. now apply (OrderedTypeEx.String_as_OT.lt_not_eq _ _ H).
Qed.

Lemma tuple_ltb_iff (x y : string * string) :
  tuple_ltb x y = true <->
  OrderedTypeEx.String_as_OT.lt (fst x) (fst y) \/
  (fst x = fst y /\ OrderedTypeEx.String_as_OT.lt (snd x) (snd y)).
Proof.
  unfold tuple_ltb, String.ltb.
  destruct (String.compare (fst x) (fst y)) eqn:E.
  - apply (proj1 (OrderedTypeEx.String_as_OT.cmp_eq _ _)) in E.
    destruct (String.compare (snd x) (snd y)) eqn:E'.
    + apply (proj1 (OrderedTypeEx.String_as_OT.cmp_eq _ _)) in E'.
      split; [discriminate |].
      intros [H | [_ H]].
      * rewrite E in H. now apply slt_irrefl in H.
      * rewrite E' in H. now apply slt_irrefl in H.
    + apply (proj1 (OrderedTypeEx.String_as_OT.cmp_lt _ _)) in E'. tauto.
    + split; [discriminate |].
      intros [H | [_ H]].
      * rewrite E in H. now apply slt_irrefl in H.
      * apply (proj2 (OrderedTypeEx.String_as_OT.cmp_lt _ _)) in H.
        change (String.compare (snd x) (snd y) = Lt) in H. congruence.
  - apply (proj1 (OrderedTypeEx.String_as_OT.cmp_lt _ _)) in E. tauto.
  - split; [discriminate |].
    intros [H | [H _]].
    + apply (proj2 (OrderedTypeEx.String_as_OT.cmp_lt _ _)) in H.
      change (String.compare (fst x) (fst y) = Lt) in H. congruence.
    + rewrite H in E.
      assert (Hrefl : String.compare (fst y) (fst y) = Eq)
        by now apply OrderedTypeEx.String_as_OT.cmp_eq.
      congruence.
Qed.

Lemma tuple_ltb_trans (x y z : string * string) :
  tuple_ltb x y = true -> tuple_ltb y z = true -> tuple_ltb x z = true.
Proof.
  rewrite !tuple_ltb_iff. intros [H1 | [E1 H1]] [H2 | [E2 H2]].
  - left. eapply OrderedTypeEx.String_as_OT.lt_trans; eassumption.
  - left. now rewrite <- E2.
  - left. now rewrite E1.
  - right. split; [congruence |].
    eapply OrderedTypeEx.String_as_OT.lt_trans; eassumption.
Qed.

Lemma tuple_ltb_irrefl (x : string * string) : tuple_ltb x x = false.
Proof.
  destruct (tuple_ltb x x) eqn:E; [| reflexivity].
  apply tuple_ltb_iff in E as [H | [_ H]]; now apply slt_irrefl in H.
Qed.

Lemma tuple_trichotomy (x y : string * string) :
  tuple_ltb x y = true \/ x = y \/ tuple_ltb y x = true.
Proof.
  rewrite !tuple_ltb_iff. destruct x as [a b], y as [a' b']. cbn [fst snd].
  destruct (string_trichotomy a a') as [H | [-> | H]]; [tauto | | tauto].
  destruct (string_trichotomy b b') as [H | [-> | H]]; tauto.
Qed.

Lemma tuple_ltb_asym (x y : string * string) :
  tuple_ltb x y = true -> tuple_ltb y x = false.
Proof.
  intros H. destruct (tuple_ltb y x) eqn:E; [| reflexivity].
  pose proof (tuple_ltb_trans _ _ _ H E) as Hxx.
  rewrite tuple_ltb_irrefl in Hxx. discriminate.
Qed.

(** "Not greater": [x] may stand before [y]. *)
Lemma tuple_le_trans (x y z : string * string) :
  tuple_ltb y x = false -> tuple_ltb z y = false -> tuple_ltb z x = false.
Proof.
  intros Hxy Hyz. destruct (tuple_ltb z x) eqn:E; [| reflexivity].
  destruct (tuple_trichotomy z y) as [H | [-> | H]]; [congruence | congruence |].
  pose proof (tuple_ltb_trans _ _ _ H E). congruence.
Qed.

Lemma insert_sorted_in {A} (lt : A -> A -> bool) (x y : A) (l : list A) :
  In y (insert_sorted lt x l) <-> y = x \/ In y l.
Proof.
  split; intros H.
  - apply (Permutation_in _ (insert_sorted_perm lt x l)) in H.
    destruct H as [<- | H]; auto.
  - apply (Permutation_in _ (Permutation_sym (insert_sorted_perm lt x l))).
    destruct H as [-> | H]; [left; reflexivity | right; exact H].
Qed.

Lemma insert_sorted_ordered (x : string * string) (l : list (string * string)) :
  Sorted.StronglySorted (fun a b => tuple_ltb b a = false) l ->
  Sorted.StronglySorted (fun a b => tuple_ltb b a = false)
    (insert_sorted tuple_ltb x l).
Proof.
  induction 1 as [| y l Hl IH Hy]; simpl.
  - repeat constructor.
  - destruct (tuple_ltb y x) eqn:E.
    + constructor; [exact IH |].
      apply Forall_forall. intros z Hz.
      apply insert_sorted_in in Hz as [-> | Hz].
      * now apply tuple_ltb_asym.
      * rewrite Forall_forall in Hy. now apply Hy.
    + constructor; [constructor; assumption |].
      constructor; [exact E |].
      apply Forall_forall. intros z Hz. rewrite Forall_forall in Hy.
      apply (tuple_le_trans x y z E). now apply Hy.
Qed.

Lemma sorted_ordered (l : list (string * string)) :
  Sorted.StronglySorted (fun a b => tuple_ltb b a = false) (sorted tuple_ltb l).
Proof.
  induction l as [| x l IH]; simpl; [constructor |].
  apply insert_sorted_ordered, IH.
Qed.

(** Two ordered lists with the same elements, none repeated, are equal. *)
Lemma ordered_unique (l : list (string * string)) :
  forall l',
    Sorted.StronglySorted (fun a b => tuple_ltb b a = false) l ->
    Sorted.StronglySorted (fun a b => tuple_ltb b a = false) l' ->
    NoDup l -> NoDup l' -> (forall x, In x l <-> In x l') -> l = l'.
Proof.
  induction l as [| x l IH]; intros l' Hs Hs' Hnd Hnd' Hsame.
  - destruct l' as [| y l']; [reflexivity |].
    destruct (proj2 (Hsame y) (or_introl eq_refl)).
  - destruct l' as [| y l'].
    { destruct (proj1 (Hsame x) (or_introl eq_refl)). }
    inversion Hs as [| ? ? Hl Hx]; subst.
    inversion Hs' as [| ? ? Hl' Hy]; subst.
    inversion Hnd as [| ? ? Hnx Hndl]; subst.
    inversion Hnd' as [| ? ? Hny Hndl']; subst.
    rewrite Forall_forall in Hx, Hy.
    assert (Exy : x = y).
    { destruct (proj1 (Hsame x) (or_introl eq_refl)) as [E | Hin]; [auto |].
      destruct (proj2 (Hsame y) (or_introl eq_refl)) as [E | Hin']; [auto |].
      pose proof (Hy x Hin) as H1. pose proof (Hx y Hin') as H2.
      destruct (tuple_trichotomy x y) as [H | [H | H]]; congruence. }
    subst y. f_equal. apply IH; try assumption.
    intros z. split; intros Hz.
    + destruct (proj1 (Hsame z) (or_intror Hz)) as [E | H]; [| exact H].
      subst z. contradiction.
    + destruct (proj2 (Hsame z) (or_intror Hz)) as [E | H]; [| exact H].
      subst z. contradiction.
Qed.

(** Sorting the items of a [dict] gives the same list whatever order the
    items were inserted in. *)
Lemma sorted_items_order_independent (d d' : list (string * string)) :
  NoDup (map fst d) -> Permutation d d' ->
  sorted tuple_ltb d' = sorted tuple_ltb d.
Proof.
  intros Hnd Hperm.
  assert (Hd : NoDup d) by (eapply NoDup_map_inv; eassumption).
  apply ordered_unique; try apply sorted_ordered.
  - eapply Permutation_NoDup; [| exact Hd].
    eapply perm_trans; [exact Hperm | apply Permutation_sym, sorted_perm].
  - eapply Permutation_NoDup; [| exact Hd]. apply Permutation_sym, sorted_perm.
  - intros x. split; intros H.
    + eapply Permutation_in; [apply Permutation_sym, sorted_perm |].
      eapply Permutation_in; [apply Permutation_sym, Hperm |].
      eapply Permutation_in; [apply sorted_perm | exact H].
    + eapply Permutation_in; [apply Permutation_sym, sorted_perm |].
      eapply Permutation_in; [apply Hperm |].
      eapply Permutation_in; [apply sorted_perm | exact H].
Qed.

Lemma dict_get_ok_pair {V} (d : list (string * V)) (k : string) (v : V) :
  dict_get d k = Ok v -> In (k, v) d.
Proof.
  induction d as [| [k' v'] rest IH]; simpl; [discriminate |].
  destruct (String.eqb_spec k' k) as [-> | _].
  - intros H. left. congruence.
  - intros H. right. apply IH, H.
Qed.

Lemma dict_get_missing {V} (d : list (string * V)) (k : string) :
  ~ In k (map fst d) -> dict_get d k = Raise KeyError.
Proof.
  induction d as [| [k' v'] rest IH]; simpl; [reflexivity |].
  intros Hnot. destruct (String.eqb_spec k' k) as [-> | _].
  - exfalso. apply Hnot. left; reflexivity.
  - apply IH. intros H. apply Hnot. right; exact H.
Qed.

(** Looking a key up in a [dict] does not depend on insertion order. *)
Lemma dict_get_order_independent {V} (d d' : list (string * V)) (k : string) :
  NoDup (map fst d) -> Permutation d d' -> dict_get d' k = dict_get d k.
Proof.
  intros Hnd Hperm.
  assert (Hnd' : NoDup (map fst d')).
  { eapply Permutation_NoDup; [apply Permutation_map, Hperm | exact Hnd]. }
  destruct (dict_get d k) as [v | e] eqn:E.
  - apply dict_get_unique; [exact Hnd' |].
    eapply Permutation_in; [exact Hperm |]. now apply dict_get_ok_pair.
  - rewrite (dict_get_raises_key_error _ _ _ E).
    apply dict_get_missing. intros Hin.
    assert (Hin' : In k (map fst d)).
    { eapply Permutation_in; [apply Permutation_sym, Permutation_map, Hperm
                             | exact Hin]. }
    destruct (dict_get_in d k Hin') as [v [Hv _]]. congruence.
Qed.

(** The partition does not depend on the order in which the label map lists
    its entries: two label maps with the same entries, inserted in different
    orders, give the same list of regions in the same order. *)
Theorem make_view_partition_order_independent
    (VIEW_SHAPE : Z * Z) (encoding_labels : list string)
    (label_to_statement reordered : list (string * string)) :
  well_formed VIEW_SHAPE encoding_labels label_to_statement = true ->
  NoDup (map fst label_to_statement) ->
  Permutation label_to_statement reordered ->
  make_view_partition_from VIEW_SHAPE encoding_labels reordered =
  make_view_partition_from VIEW_SHAPE encoding_labels label_to_statement.
Proof.
  intros WF Hnd Hperm.
  assert (WF' : well_formed VIEW_SHAPE encoding_labels reordered = true).
  { unfold well_formed in *. repeat rewrite andb_true_iff in *.
    destruct WF as [[[H1 H2] H3] H4]. repeat split; try assumption.
    rewrite forallb_forall in *. intros row Hrow. specialize (H4 row Hrow).
    rewrite forallb_forall in *. intros label Hlabel.
    specialize (H4 label Hlabel).
    apply orb_true_iff in H4 as [H4 | H4]; [now rewrite H4 |].
    apply orb_true_iff. right.
    apply existsb_exists in H4 as [k [Hk E]].
    apply existsb_exists. exists k. split; [| exact E].
    eapply Permutation_in; [apply Permutation_map, Hperm | exact Hk]. }
  rewrite (partition_regions _ _ _ WF).
  rewrite (partition_regions _ _ _ WF').
  f_equal. unfold spec_partition.
  rewrite (sorted_items_order_independent _ _ Hnd Hperm).
  apply map_ext. intros item. f_equal.
  apply filter_ext. intros rc.
  unfold filed_under, cell_statement.
  destruct (label_at encoding_labels rc) as [label |]; [| reflexivity].
  now rewrite (dict_get_order_independent _ _ _ Hnd Hperm).
Qed.

Lemma make_view_partition_order_independent_witness :
  make_view_partition_from (1, 3) ["0E1"]
    [("1", "Directly right"); ("0", "Directly left")] =
  make_view_partition_from (1, 3) ["0E1"]
    [("0", "Directly left"); ("1", "Directly right")].
Proof.
  apply (make_view_partition_order_independent (1, 3) ["0E1"]
           [("0", "Directly left"); ("1", "Directly right")]
           [("1", "Directly right"); ("0", "Directly left")]).
  - reflexivity.
  - repeat constructor; simpl; intuition discriminate.
  - apply perm_swap.
Defined.
